(** * SVG asset tools: dimension prober, aspect-fit calculator,
      asset embedder and geometry fixer

    A shallow embedding of [tools/fix_image_aspect.py] and
    [tools/embed_images.py].  Python values are modelled as follows.

    - [float]: the arithmetic the tools use is collected in the interface
      [PyFloat].  Its instance [binary64] is IEEE 754 double precision
      (Rocq's primitive floats), which is what CPython computes with; the
      instance [exact] reads the same code over the rationals and is used
      where a statement is about the arithmetic the code approximates.
    - [bytes]: [list byte].
    - [str]: [string]; one character per code point below 256.
    - [dict] (element attributes): [gmap string string].
    - ElementTree elements are mutable objects with identity: a document
      is a store of elements addressed by index, children are lists of
      addresses. *)

From Stdlib Require Import ZArith NArith QArith Qabs Lqa Floats SpecFloat.
From Stdlib Require Import String Ascii Decimal DecimalN DecimalString.
From Stdlib.Strings Require Import Byte.
From stdpp Require Import base option list strings gmap.

Set Warnings "-register-all".

Local Open Scope string_scope.
Local Open Scope Z_scope.
Local Open Scope list_scope.

(** ** Python floats *)

(** The value of a decimal literal accepted by [float(str)]. *)
Inductive float_literal :=
  | LitInf (neg : bool)
  | LitNan
  | LitDec (neg : bool) (digits : N) (exp10 : Z).

(** A number rounded for [format(v, ".<d>f")]: the integer is
    [|v| * 10^d] rounded half to even. *)
Inductive fixed_point :=
  | FixInf (neg : bool)
  | FixNan
  | FixNum (neg : bool) (scaled : N).

Class PyFloat (F : Type) := {
  float_of_decimal : bool → N → Z → F;
  float_inf : bool → option F;
  float_nan : option F;
  fadd : F → F → F;
  fsub : F → F → F;
  fmul : F → F → F;
  (** true division; [None] is [ZeroDivisionError] *)
  fdiv : F → F → option F;
  flt : F → F → bool;
  fle : F → F → bool;
  fabs : F → F;
  to_fixed : nat → F → fixed_point;
  (** [str(v)], as an f-string field without a format prints it *)
  float_str : F → string;
}.

(** [float(n)] for an [int] and the literals the tools use. *)
Definition float_of_int `{PyFloat F} (n : Z) : F :=
  float_of_decimal (n <? 0) (Z.abs_N n) 0.
Definition f_zero `{PyFloat F} : F := float_of_int 0.
Definition f_one `{PyFloat F} : F := float_of_int 1.
Definition f_two `{PyFloat F} : F := float_of_int 2.
Definition f_half `{PyFloat F} : F := float_of_decimal false 5 (-1).

(** [p / q] rounded to the nearest integer, ties to even. *)
Definition round_half_even (p : Z) (q : positive) : Z :=
  let d := p / Z.pos q in
  let r := p mod Z.pos q in
  match 2 * r ?= Z.pos q with
  | Lt => d
  | Gt => d + 1
  | Eq => if Z.even d then d else d + 1
  end.

(** ** Python strings and bytes *)

Definition chars (s : string) : list ascii := list_ascii_of_string s.
Definition text_of (l : list ascii) : string := string_of_list_ascii l.

Definition code (c : ascii) : N := N_of_ascii c.

(** [s.startswith(p)], [s.endswith(p)] and [sub in s]. *)
Fixpoint starts_with (p s : list ascii) : bool :=
  match p, s with
  | [], _ => true
  | a :: p', b :: s' => Ascii.eqb a b && starts_with p' s'
  | _ :: _, [] => false
  end.

Definition startswith (s p : string) : bool := starts_with (chars p) (chars s).

Definition endswith (s p : string) : bool :=
  starts_with (rev (chars p)) (rev (chars s)).

Fixpoint occurs (p s : list ascii) : bool :=
  starts_with p s || match s with [] => false | _ :: s' => occurs p s' end.

Definition contains (sub s : string) : bool := occurs (chars sub) (chars s).

(** [s.split(sep)] for a one-character separator. *)
Fixpoint split_on (sep : ascii) (s : list ascii) : list (list ascii) :=
  match s with
  | [] => [[]]
  | c :: s' =>
      match split_on sep s' with
      | piece :: pieces =>
          if Ascii.eqb c sep then [] :: piece :: pieces else (c :: piece) :: pieces
      | [] => [[c]]
      end
  end.

Definition split (s : string) (sep : ascii) : list string :=
  text_of <$> split_on sep (chars s).

(** [s.lower()] on the ASCII letters. *)
Definition lower_char (c : ascii) : ascii :=
  let n := code c in
  if ((65 <=? n) && (n <=? 90))%N then ascii_of_N (n + 32) else c.

Definition lower (s : string) : string := text_of (lower_char <$> chars s).

(** [data[a:b]] for [0 <= a <= b]. *)
Definition slice {A} (a b : nat) (l : list A) : list A := take (b - a) (drop a l).

(** [int.from_bytes(bs, "big")]. *)
Definition byte_val (b : byte) : Z := Z.of_N (Byte.to_N b).

Definition int_from_bytes (bs : list byte) : Z :=
  fold_left (λ acc b, acc * 256 + byte_val b) bs 0.

Definition to_byte (n : N) : byte := default x00 (Byte.of_N (n mod 256)).

Definition bytes_of (s : string) : list byte := byte_of_ascii <$> chars s.

(** ** [float(str)] *)

Definition is_digit (c : ascii) : bool := ((48 <=? code c) && (code c <=? 57))%N.

(** Characters stripped by [float]: those for which [str.isspace] holds
    below code point 256. *)
Definition is_space (c : ascii) : bool :=
  let n := code c in
  (((9 <=? n) && (n <=? 13)) || ((28 <=? n) && (n <=? 32))
   || (n =? 133) || (n =? 160))%N.

Fixpoint lstrip (s : list ascii) : list ascii :=
  match s with
  | c :: s' => if is_space c then lstrip s' else s
  | [] => []
  end.

Definition strip (s : list ascii) : list ascii := rev (lstrip (rev (lstrip s))).

Definition digits_value (ds : list ascii) : N :=
  fold_left (λ acc c, acc * 10 + (code c - 48))%N ds 0%N.

(** The rest of a [digitpart]: [(["_"] digit)*]. *)
Fixpoint digit_tail (s : list ascii) : list ascii * list ascii :=
  match s with
  | c :: s' =>
      if is_digit c then
        let '(ds, r) := digit_tail s' in (c :: ds, r)
      else if Ascii.eqb c "_" then
        match s' with
        | d :: s'' =>
            if is_digit d then let '(ds, r) := digit_tail s'' in (d :: ds, r)
            else ([], s)
        | [] => ([], s)
        end
      else ([], s)
  | [] => ([], [])
  end.

Definition digitpart (s : list ascii) : option (list ascii * list ascii) :=
  match s with
  | c :: s' =>
      if is_digit c then let '(ds, r) := digit_tail s' in Some (c :: ds, r)
      else None
  | [] => None
  end.

(** [number ::= [digitpart] "." digitpart | digitpart ["."]]: the integer
    digits, the fraction digits and the rest. *)
Definition number (s : list ascii)
    : option (list ascii * list ascii * list ascii) :=
  match digitpart s with
  | Some (ip, r) =>
      match r with
      | c :: r' =>
          if Ascii.eqb c "." then
            match digitpart r' with
            | Some (fp, r'') => Some (ip, fp, r'')
            | None => Some (ip, [], r')
            end
          else Some (ip, [], r)
      | [] => Some (ip, [], r)
      end
  | None =>
      match s with
      | c :: r =>
          if Ascii.eqb c "." then '(fp, r') ← digitpart r; Some ([], fp, r')
          else None
      | [] => None
      end
  end.

Definition take_sign (s : list ascii) : bool * list ascii :=
  match s with
  | c :: s' =>
      if Ascii.eqb c "-" then (true, s')
      else if Ascii.eqb c "+" then (false, s')
      else (false, s)
  | [] => (false, s)
  end.

(** [exponent ::= ("e" | "E") [sign] digitpart], then the end of the text. *)
Definition exponent (s : list ascii) : option Z :=
  match s with
  | [] => Some 0
  | c :: s' =>
      if Ascii.eqb c "e" || Ascii.eqb c "E" then
        let '(neg, s'') := take_sign s' in
        '(ds, r) ← digitpart s'';
        match r with
        | [] => Some (if neg then - Z.of_N (digits_value ds)
                      else Z.of_N (digits_value ds))
        | _ => None
        end
      else None
  end.

Definition parse_float_literal (s : string) : option float_literal :=
  let '(neg, body) := take_sign (strip (chars s)) in
  let word := text_of (lower_char <$> body) in
  if String.eqb word "inf" || String.eqb word "infinity" then Some (LitInf neg)
  else if String.eqb word "nan" then Some LitNan
  else
    '(ip, fp, r) ← number body;
    e ← exponent r;
    Some (LitDec neg (digits_value (ip ++ fp)) (e - Z.of_nat (length fp))).

(** [float(s)]; [None] is [ValueError]. *)
Definition py_float `{PyFloat F} (s : string) : option F :=
  lit ← parse_float_literal s;
  match lit with
  | LitInf neg => float_inf neg
  | LitNan => float_nan
  | LitDec neg d k => Some (float_of_decimal neg d k)
  end.

(** ** [format(v, ".<d>f")] *)

Definition N_digits (n : N) : list ascii :=
  chars (NilEmpty.string_of_uint (N.to_uint n)).

Definition pad_zeros (width : nat) (ds : list ascii) : list ascii :=
  replicate (width - length ds) "0"%char ++ ds.

Definition format_fixed `{PyFloat F} (d : nat) (v : F) : string :=
  match to_fixed d v with
  | FixInf neg => if neg then "-inf" else "inf"
  | FixNan => "nan"
  | FixNum neg n =>
      let scale := (10 ^ N.of_nat d)%N in
      text_of ((if neg then ["-"%char] else [])
               ++ N_digits (n / scale)
               ++ match d with
                  | O => []
                  | _ => "."%char :: pad_zeros d (N_digits (n mod scale))
                  end)
  end.

(** ** The two arithmetics *)

Module Binary64.

Definition of_decimal (neg : bool) (d : N) (k : Z) : float :=
  match d with
  | N0 => if neg then PrimFloat.neg_zero else PrimFloat.zero
  | Npos m =>
      match k with
      | Zneg p =>
          SF2Prim (SFdiv prec emax (S754_finite neg m 0)
                     (S754_finite false (10 ^ p)%positive 0))
      | _ =>
          let v := Z.pos m * 10 ^ k in
          SF2Prim (binary_normalize prec emax (if neg then - v else v) 0 false)
      end
  end.

Definition div (x y : float) : option float :=
  if PrimFloat.eqb y PrimFloat.zero then None else Some (PrimFloat.div x y).

Definition fixed (d : nat) (x : float) : fixed_point :=
  match Prim2SF x with
  | S754_zero s => FixNum s 0
  | S754_infinity s => FixInf s
  | S754_nan => FixNan
  | S754_finite s m e =>
      let scaled := Z.pos m * 10 ^ Z.of_nat d in
      FixNum s (Z.to_N (match e with
                        | Zneg p => round_half_even scaled (2 ^ p)%positive
                        | _ => scaled * 2 ^ e
                        end))
  end.

(** [repr]: the shortest digit string that reads back as the same
    float.  [x] is [m * 2^e]; the result is the digits and the position
    of the decimal point ([0.d1d2... * 10^decpt]). *)
Definition below_pow10 (p : Z) (q : positive) (k : Z) : bool :=
  match k with
  | Zneg j => p * 10 ^ Z.pos j <? Z.pos q
  | _ => p <? Z.pos q * 10 ^ k
  end.

Fixpoint find_decpt (fuel : nat) (p : Z) (q : positive) (k : Z) : Z :=
  match fuel with
  | O => k
  | S fuel' =>
      if below_pow10 p q k then
        if below_pow10 p q (k - 1) then find_decpt fuel' p q (k - 1) else k
      else find_decpt fuel' p q (k + 1)
  end.

Definition round_digits (p : Z) (q : positive) (decpt : Z) (n : Z) : Z * Z :=
  let d := match n - decpt with
           | Zneg j => round_half_even p (q * 10 ^ j)%positive
           | k => round_half_even (p * 10 ^ k) q
           end in
  if d =? 10 ^ n then (10 ^ (n - 1), decpt + 1) else (d, decpt).

Fixpoint shortest_from (fuel : nat) (x : float) (p : Z) (q : positive)
    (decpt : Z) (n : Z) : Z * Z :=
  let '(d, dp) := round_digits p q decpt n in
  match fuel with
  | O => (d, dp)
  | S fuel' =>
      if PrimFloat.eqb (of_decimal false (Z.to_N d) (dp - n)) x then (d, dp)
      else shortest_from fuel' x p q decpt (n + 1)
  end.

Definition shortest (m : positive) (e : Z) : list ascii * Z :=
  let '(p, q) := match e with
                 | Zneg k => (Z.pos m, (2 ^ k)%positive)
                 | _ => (Z.pos m * 2 ^ e, 1%positive)
                 end in
  let estimate := (Z.log2 p - Z.log2 (Z.pos q)) * 30103 / 100000 + 1 in
  let decpt := find_decpt 16 p q estimate in
  let '(d, dp) := shortest_from 16 (SF2Prim (S754_finite false m e)) p q decpt 1 in
  (N_digits (Z.to_N d), dp).

Definition layout (ds : list ascii) (decpt : Z) : list ascii :=
  let n := Z.of_nat (length ds) in
  if (decpt <=? -4) || (16 <? decpt) then
    let e := decpt - 1 in
    take 1 ds
    ++ match drop 1 ds with [] => [] | frac => "."%char :: frac end
    ++ ["e"%char; if e <? 0 then "-"%char else "+"%char]
    ++ pad_zeros 2 (N_digits (Z.abs_N e))
  else if decpt <=? 0 then
    chars "0." ++ replicate (Z.to_nat (- decpt)) "0"%char ++ ds
  else if decpt <? n then
    take (Z.to_nat decpt) ds ++ "."%char :: drop (Z.to_nat decpt) ds
  else ds ++ replicate (Z.to_nat (decpt - n)) "0"%char ++ chars ".0".

Definition str (x : float) : string :=
  match Prim2SF x with
  | S754_zero s => if s then "-0.0" else "0.0"
  | S754_infinity s => if s then "-inf" else "inf"
  | S754_nan => "nan"
  | S754_finite s m e =>
      let '(ds, decpt) := shortest m e in
      text_of ((if s then ["-"%char] else []) ++ layout ds decpt)
  end.

End Binary64.

#[export] Instance binary64 : PyFloat float := {
  float_of_decimal := Binary64.of_decimal;
  float_inf neg := Some (if neg then PrimFloat.neg_infinity else PrimFloat.infinity);
  float_nan := Some PrimFloat.nan;
  fadd := PrimFloat.add;
  fsub := PrimFloat.sub;
  fmul := PrimFloat.mul;
  fdiv := Binary64.div;
  flt := PrimFloat.ltb;
  fle := PrimFloat.leb;
  fabs := PrimFloat.abs;
  to_fixed := Binary64.fixed;
  float_str := Binary64.str;
}.

Module Exact.

Definition of_decimal (neg : bool) (d : N) (k : Z) : Q :=
  let n := if neg then - Z.of_N d else Z.of_N d in
  match k with
  | Zneg p => n # (10 ^ p)
  | _ => (n * 10 ^ k) # 1
  end.

Definition div (x y : Q) : option Q :=
  if Qeq_bool y 0 then None else Some (x / y)%Q.

Definition lt (x y : Q) : bool := negb (Qle_bool y x).

Definition fixed (d : nat) (x : Q) : fixed_point :=
  FixNum (Qnum x <? 0)
    (Z.to_N (round_half_even (Z.abs (Qnum x) * 10 ^ Z.of_nat d) (Qden x))).

(** [str] of a [Fraction]. *)
Definition str (x : Q) : string :=
  let r := Qred x in
  text_of ((if Qnum r <? 0 then ["-"%char] else [])
           ++ N_digits (Z.abs_N (Qnum r))
           ++ match Qden r with
              | 1%positive => []
              | d => "/"%char :: N_digits (Npos d)
              end).

End Exact.

#[export] Instance exact : PyFloat Q := {
  float_of_decimal := Exact.of_decimal;
  float_inf _ := None;
  float_nan := None;
  fadd := Qplus;
  fsub := Qminus;
  fmul := Qmult;
  fdiv := Exact.div;
  flt := Exact.lt;
  fle := Qle_bool;
  fabs := Qabs;
  to_fixed := Exact.fixed;
  float_str := Exact.str;
}.

(** ** Aspect-fit calculator ([calculate_fitted_dimensions]) *)

Section Calculator.
Context `{PyFloat F}.

Definition calculate_fitted_dimensions
    (img_width img_height box_width box_height : F) (mode : string)
    : option (F * F * F * F) :=
  img_ratio ← fdiv img_width img_height;
  box_ratio ← fdiv box_width box_height;
  '(new_width, new_height) ←
    (if String.eqb mode "meet" then
       if flt box_ratio img_ratio then
         new_height ← fdiv box_width img_ratio;
         Some (box_width, new_height)
       else
         Some (fmul box_height img_ratio, box_height)
     else
       if flt box_ratio img_ratio then
         Some (fmul box_height img_ratio, box_height)
       else
         new_height ← fdiv box_width img_ratio;
         Some (box_width, new_height));
  offset_x ← fdiv (fsub box_width new_width) f_two;
  offset_y ← fdiv (fsub box_height new_height) f_two;
  Some (new_width, new_height, offset_x, offset_y).

(** The calculator as the specification words it: the branch is chosen
    by comparing the two ratios, slice inverts the choice, and the
    offsets centre the fitted rectangle without clamping. *)
Definition clamp_to_width (ratio box_width : F) : option (F * F) :=
  h ← fdiv box_width ratio; Some (box_width, h).

Definition clamp_to_height (ratio box_height : F) : option (F * F) :=
  Some (fmul box_height ratio, box_height).

Definition centre (box_dim fitted_dim : F) : option F :=
  fdiv (fsub box_dim fitted_dim) f_two.

Definition fit_spec (slice : bool)
    (intrinsic_width intrinsic_height box_width box_height : F)
    : option (F * F * F * F) :=
  intrinsic_ratio ← fdiv intrinsic_width intrinsic_height;
  box_ratio ← fdiv box_width box_height;
  let wider := flt box_ratio intrinsic_ratio in
  fitted ← (if xorb wider slice
            then clamp_to_width intrinsic_ratio box_width
            else clamp_to_height intrinsic_ratio box_height);
  offset_x ← centre box_width fitted.1;
  offset_y ← centre box_height fitted.2;
  Some (fitted.1, fitted.2, offset_x, offset_y).

End Calculator.


(** ** Regular expressions ([re])

    The two patterns of the prober are sequences of one-character classes
    under [*], [+], [?] and capture groups.  Matching is Python's:
    leftmost, greedy, with backtracking.  Text is a list of code points. *)

Inductive re_item :=
  | ReOne (cls : N → bool)
  | ReOpt (cls : N → bool)
  | ReStar (cls : N → bool)
  | RePlus (cls : N → bool)
  | ReOpen
  | ReClose.

(** Greedy repetition of a class before the rest of the pattern [k]: take
    as many characters as the class allows, give them back one at a time
    while [k] fails. *)
Fixpoint re_star {R} (k : list N → nat → option R) (cls : N → bool)
    (s : list N) (pos : nat) : option R :=
  match s with
  | c :: s' =>
      if cls c then
        match re_star k cls s' (S pos) with
        | Some r => Some r
        | None => k s pos
        end
      else k s pos
  | [] => k s pos
  end.

(** A match attempt at [pos]: the spans of the groups closed so far and
    the end of the match. *)
Fixpoint re_items (p : list re_item) (s : list N) (pos : nat)
    (opened : list nat) (groups : list (nat * nat))
    : option (list (nat * nat) * nat) :=
  match p with
  | [] => Some (groups, pos)
  | ReOne cls :: p' =>
      match s with
      | c :: s' => if cls c then re_items p' s' (S pos) opened groups else None
      | [] => None
      end
  | ReOpt cls :: p' =>
      match s with
      | c :: s' =>
          if cls c then
            match re_items p' s' (S pos) opened groups with
            | Some r => Some r
            | None => re_items p' s pos opened groups
            end
          else re_items p' s pos opened groups
      | [] => re_items p' s pos opened groups
      end
  | ReStar cls :: p' =>
      re_star (λ s pos, re_items p' s pos opened groups) cls s pos
  | RePlus cls :: p' =>
      match s with
      | c :: s' =>
          if cls c
          then re_star (λ s pos, re_items p' s pos opened groups) cls s' (S pos)
          else None
      | [] => None
      end
  | ReOpen :: p' => re_items p' s pos (pos :: opened) groups
  | ReClose :: p' =>
      match opened with
      | start :: opened' => re_items p' s pos opened' (groups ++ [(start, pos)])
      | [] => None
      end
  end.

(** [re.match]: at the start of the text. *)
Definition re_match (p : list re_item) (s : list N) : option (list (nat * nat)) :=
  fst <$> re_items p s 0 [] [].

(** [re.search]: at the leftmost position where a match exists. *)
Fixpoint re_search_from (p : list re_item) (s : list N) (pos : nat)
    : option (list (nat * nat)) :=
  match re_items p s pos [] [] with
  | Some r => Some r.1
  | None =>
      match s with
      | _ :: s' => re_search_from p s' (S pos)
      | [] => None
      end
  end.

Definition re_search (p : list re_item) (s : list N) : option (list (nat * nat)) :=
  re_search_from p s 0.

(** [m.group(i)], [i >= 1]. *)
Definition group (s : list N) (groups : list (nat * nat)) (i : nat) : list N :=
  match groups !! (i - 1)%nat with
  | Some (a, b) => slice a b s
  | None => []
  end.

Definition codes (s : string) : list N := code <$> chars s.
Definition re_lit (s : string) : list re_item := (λ c, ReOne (N.eqb c)) <$> codes s.

(** The classes, exact on ASCII; [\s] also has the other code points
    Python counts as white space.  Digits and word characters outside
    ASCII are not in the model. *)
Definition re_digit (c : N) : bool := ((48 <=? c) && (c <=? 57))%N.

Definition re_space (c : N) : bool :=
  (((9 <=? c) && (c <=? 13)) || ((28 <=? c) && (c <=? 32))
   || (c =? 133) || (c =? 160) || (c =? 5760)
   || ((8192 <=? c) && (c <=? 8202)) || (c =? 8232) || (c =? 8233)
   || (c =? 8239) || (c =? 8287) || (c =? 12288))%N.

Definition re_word (c : N) : bool :=
  (re_digit c || ((65 <=? c) && (c <=? 90)) || ((97 <=? c) && (c <=? 122))
   || (c =? 95))%N.

Definition re_dot (c : N) : bool := negb (c =? 10)%N.

Definition re_quote (c : N) : bool := ((c =? 34) || (c =? 39))%N.

(** [data:image/(\w+);base64,(.+)] *)
Definition DATA_URI_RE : list re_item :=
  re_lit "data:image/" ++ [ReOpen; RePlus re_word; ReClose]
  ++ re_lit ";base64," ++ [ReOpen; RePlus re_dot; ReClose].

(** The view box pattern of [get_image_dimensions]: the word viewBox,
    [\s*], an equals sign, [\s*], a quote (single or double), [\d+],
    [\s+], [\d+], [\s+], group 1, [\s+], group 2 and a quote; each group
    is [\d+], an optional dot and [\d*]. *)
Definition VIEWBOX_RE : list re_item :=
  re_lit "viewBox"
  ++ [ReStar re_space; ReOne (N.eqb 61); ReStar re_space; ReOne re_quote;
      RePlus re_digit; RePlus re_space; RePlus re_digit; RePlus re_space;
      ReOpen; RePlus re_digit; ReOpt (N.eqb 46); ReStar re_digit; ReClose;
      RePlus re_space;
      ReOpen; RePlus re_digit; ReOpt (N.eqb 46); ReStar re_digit; ReClose;
      ReOne re_quote].

(** ** [base64] and UTF-8 *)

Definition b64_value (c : N) : option N :=
  (if (65 <=? c) && (c <=? 90) then Some (c - 65)
   else if (97 <=? c) && (c <=? 122) then Some (c - 71)
   else if (48 <=? c) && (c <=? 57) then Some (c + 4)
   else if c =? 43 then Some 62
   else if c =? 47 then Some 63
   else None)%N.

(** [binascii.a2b_base64] as [b64decode] calls it (not strict): characters
    outside the alphabet are dropped, a pad sequence that completes a quad
    ends the input, and an incomplete quad at the end is an error. *)
Fixpoint a2b_base64 (s : list N) (quad_pos : nat) (leftchar : N) (pads : nat)
    (out : list byte) : option (list byte) :=
  match s with
  | [] => if decide (quad_pos = 0%nat) then Some (rev out) else None
  | c :: s' =>
      if (c =? 61)%N then
        if decide (2 ≤ quad_pos)%nat then
          if decide (4 ≤ quad_pos + S pads)%nat then Some (rev out)
          else a2b_base64 s' quad_pos leftchar (S pads) out
        else a2b_base64 s' quad_pos leftchar pads out
      else
        match b64_value c with
        | None => a2b_base64 s' quad_pos leftchar pads out
        | Some v =>
            match quad_pos with
            | 0%nat => a2b_base64 s' 1%nat v 0%nat out
            | 1%nat =>
                a2b_base64 s' 2%nat (N.land v 15) 0%nat
                  (to_byte (N.lor (N.shiftl leftchar 2) (N.shiftr v 4)) :: out)
            | 2%nat =>
                a2b_base64 s' 3%nat (N.land v 3) 0%nat
                  (to_byte (N.lor (N.shiftl leftchar 4) (N.shiftr v 2)) :: out)
            | _ =>
                a2b_base64 s' 0%nat 0%N 0%nat
                  (to_byte (N.lor (N.shiftl leftchar 6) v) :: out)
            end
        end
  end.

(** [base64.b64decode(s)] for a [str]; [None] is an exception
    ([ValueError] on a character outside ASCII, [binascii.Error]). *)
Definition b64decode (s : list N) : option (list byte) :=
  if forallb (λ c, c <? 128)%N s then a2b_base64 s 0 0 0 [] else None.

Definition b64_char (v : N) : ascii :=
  ascii_of_N (if v <? 26 then v + 65
              else if v <? 52 then v + 71
              else if v <? 62 then v - 4
              else if v =? 62 then 43 else 47)%N.

(** [base64.b64encode(bs).decode("utf-8")]. *)
Fixpoint b64encode (bs : list byte) : list ascii :=
  match bs with
  | [] => []
  | [a] =>
      let x := Byte.to_N a in
      [b64_char (N.shiftr x 2); b64_char (N.shiftl (N.land x 3) 4);
       "="%char; "="%char]
  | [a; b] =>
      let x := Byte.to_N a in
      let y := Byte.to_N b in
      [b64_char (N.shiftr x 2);
       b64_char (N.lor (N.shiftl (N.land x 3) 4) (N.shiftr y 4));
       b64_char (N.shiftl (N.land y 15) 2); "="%char]
  | a :: b :: c :: bs' =>
      let x := Byte.to_N a in
      let y := Byte.to_N b in
      let z := Byte.to_N c in
      b64_char (N.shiftr x 2)
      :: b64_char (N.lor (N.shiftl (N.land x 3) 4) (N.shiftr y 4))
      :: b64_char (N.lor (N.shiftl (N.land y 15) 2) (N.shiftr z 6))
      :: b64_char (N.land z 63)
      :: b64encode bs'
  end.

(** [bs.decode("utf-8")]: the code points, or [None] for
    [UnicodeDecodeError] (stray or missing continuation bytes, overlong
    forms, surrogates, code points past U+10FFFF). *)
Definition is_cont (b : N) : bool := ((128 <=? b) && (b <=? 191))%N.

Fixpoint utf8_decode (bs : list N) : option (list N) :=
  match bs with
  | [] => Some []
  | a :: r1 =>
      if (a <? 128)%N then cons a <$> utf8_decode r1
      else if ((194 <=? a) && (a <=? 223))%N then
        match r1 with
        | b :: r2 =>
            if is_cont b
            then cons ((a - 192) * 64 + (b - 128))%N <$> utf8_decode r2
            else None
        | _ => None
        end
      else if ((224 <=? a) && (a <=? 239))%N then
        match r1 with
        | b :: c :: r3 =>
            if is_cont b && is_cont c
               && (if a =? 224 then 160 <=? b else true)%N
               && (if a =? 237 then b <=? 159 else true)%N
            then cons ((a - 224) * 4096 + (b - 128) * 64 + (c - 128))%N
                   <$> utf8_decode r3
            else None
        | _ => None
        end
      else if ((240 <=? a) && (a <=? 244))%N then
        match r1 with
        | b :: c :: d :: r4 =>
            if is_cont b && is_cont c && is_cont d
               && (if a =? 240 then 144 <=? b else true)%N
               && (if a =? 244 then b <=? 143 else true)%N
            then cons ((a - 240) * 262144 + (b - 128) * 4096
                       + (c - 128) * 64 + (d - 128))%N
                   <$> utf8_decode r4
            else None
        | _ => None
        end
      else None
  end.

Definition decode_utf8 (bs : list byte) : option (list N) :=
  utf8_decode (Byte.to_N <$> bs).

(** ** The world outside the tools

    What the tools read from their environment: whether PIL can be
    imported and what it reports for an image, the file system, path
    resolution against the directory of the document,
    [project_utils.get_svg_dimensions] and the XML parser. *)

Inductive fs_entry :=
  | FsFile (content : list byte)
  (** exists, but [open] raises: a directory, a file without permission *)
  | FsOther (st_size : nat).

Inductive xml_tree :=
  | XmlNode (tag : string) (attrib : gmap string string) (children : list xml_tree).

Record World (F : Type) := {
  HAS_PIL : bool;
  (** [Image.open(...)]: width and height, [None] when it raises *)
  pil_size : list byte → option (Z * Z);
  (** [(Path(svg_dir) / href).resolve()] *)
  resolve : string → string;
  (** [(svg_dir / unquote(html.unescape(href))).resolve()] *)
  resolve_unquoted : string → string;
  (** the entry at a resolved path, [None] when nothing exists there *)
  fs : string → option fs_entry;
  get_svg_dimensions : string → option F * option F;
  (** [ET.parse(path).getroot()], [None] when it raises *)
  ET_parse : string → option xml_tree;
}.
Arguments HAS_PIL {F}.
Arguments pil_size {F}.
Arguments resolve {F}.
Arguments resolve_unquoted {F}.
Arguments fs {F}.
Arguments get_svg_dimensions {F}.
Arguments ET_parse {F}.

(** What a call does: it returns, it lets an exception reach its caller,
    or it is still running when the fuel of the model is used up. *)
Inductive outcome (A : Type) :=
  | Returns (a : A)
  | Raises (exn : string)
  | Running.
Arguments Returns {A}.
Arguments Raises {A}.
Arguments Running {A}.

Definition bytes_eqb (a b : list byte) : bool :=
  bool_decide (Byte.to_N <$> a = Byte.to_N <$> b).

Definition PNG_MAGIC : list byte := [x89; x50; x4e; x47; x0d; x0a; x1a; x0a].
Definition JPEG_MAGIC : list byte := [xff; xd8].

(** [os.path.isabs], [PurePath.name] and [PurePath.suffix] on POSIX. *)
Definition isabs (p : string) : bool := startswith p "/".

Definition path_name (p : string) : list ascii :=
  default [] (last (split_on "/" (chars p))).

Fixpoint rfind_dot (name : list ascii) (i : nat) (found : option nat) : option nat :=
  match name with
  | [] => found
  | c :: name' =>
      rfind_dot name' (S i) (if Ascii.eqb c "." then Some i else found)
  end.

Definition path_suffix (p : string) : string :=
  let name := path_name p in
  match rfind_dot name 0 None with
  | Some i =>
      if bool_decide (0 < i < length name - 1)%nat then text_of (drop i name)
      else ""
  | None => ""
  end.

(** ** Dimension prober *)

Section Prober.
Context `{PyFloat F} (world : World F).

Definition dims : Type := option F * option F.
Definition unknown : dims := (None, None).
Definition known (w h : Z) : dims :=
  (Some (float_of_int w), Some (float_of_int h)).

(** [f.read(n)] at position [pos]: the bytes and the new position. *)
Definition f_read (f : list byte) (pos n : nat) : list byte * nat :=
  let data := take n (drop pos f) in (data, (pos + length data)%nat).

(** The marker loop of [get_image_dimensions_basic]. *)
Fixpoint jpeg_scan (fuel : nat) (f : list byte) (pos : nat) : outcome dims :=
  match fuel with
  | O => Running
  | S fuel' =>
      let '(marker, pos) := f_read f pos 2 in
      match marker with
      | [b0; b1] =>
          if negb (byte_val b0 =? 255) then Returns unknown
          else
            let m := byte_val b1 in
            if (m =? 192) || (m =? 194) then
              let '(_, pos) := f_read f pos 3 in
              let '(hb, pos) := f_read f pos 2 in
              let '(wb, pos) := f_read f pos 2 in
              Returns (known (int_from_bytes wb) (int_from_bytes hb))
            else if m =? 217 then Returns unknown
            else if m =? 216 then jpeg_scan fuel' f pos
            else if (208 <=? m) && (m <=? 215) then jpeg_scan fuel' f pos
            else
              let '(lb, pos) := f_read f pos 2 in
              let length := int_from_bytes lb in
              let target := Z.of_nat pos + (length - 2) in
              (* a seek before the start raises OSError, which is caught *)
              if target <? 0 then Returns unknown
              else jpeg_scan fuel' f (Z.to_nat target)
      | _ => Returns unknown
      end
  end.

Definition png_dimensions (data : list byte) : dims :=
  known (int_from_bytes (slice 16 20 data)) (int_from_bytes (slice 20 24 data)).

Definition get_image_dimensions_basic (fuel : nat) (image : fs_entry)
    : outcome dims :=
  match image with
  | FsOther _ => Returns unknown
  | FsFile f =>
      let data := take 64 f in
      if bytes_eqb (take 8 data) PNG_MAGIC then Returns (png_dimensions data)
      else if bytes_eqb (take 2 data) JPEG_MAGIC then jpeg_scan fuel f 2
      else Returns unknown
  end.

Definition get_image_dimensions_pil (image : fs_entry) : dims :=
  match image with
  | FsFile f =>
      match pil_size world f with
      | Some (w, h) => known w h
      | None => unknown
      end
  | FsOther _ => unknown
  end.

Definition get_image_dimensions_from_base64 (data_uri : string) : dims :=
  let uri := codes data_uri in
  match re_match DATA_URI_RE uri with
  | None => unknown
  | Some m =>
      let b64_data := group uri m 2 in
      match b64decode b64_data with
      | None => unknown
      | Some img_bytes =>
          if HAS_PIL world then
            match pil_size world img_bytes with
            | Some (w, h) => known w h
            | None => unknown
            end
          else if bytes_eqb (take 8 img_bytes) PNG_MAGIC
          then png_dimensions img_bytes
          else unknown
      end
  end.

Definition text_of_codes (l : list N) : string := text_of (ascii_of_N <$> l).

(** The view box of an inline SVG; [None] when the [try] block is left
    without a result. *)
Definition inline_svg_view_box (href : string) : option (F * F) :=
  b64_data ← split href "," !! 1%nat;
  bytes ← b64decode (codes b64_data);
  svg_content ← decode_utf8 bytes;
  let window := take 2048 svg_content in
  vb_match ← re_search VIEWBOX_RE window;
  w ← py_float (text_of_codes (group window vb_match 1));
  h ← py_float (text_of_codes (group window vb_match 2));
  Some (w, h).

Definition get_image_dimensions (fuel : nat) (href : string) : outcome dims :=
  if startswith href "data:" then
    match (if contains "image/svg+xml" href
           then inline_svg_view_box href else None) with
    | Some (w, h) => Returns (Some w, Some h)
    | None => Returns (get_image_dimensions_from_base64 href)
    end
  else
    let full_path := if isabs href then href else resolve world href in
    match fs world full_path with
    | None => Returns unknown
    | Some image =>
        if String.eqb (lower (path_suffix full_path)) ".svg"
        then Returns (get_svg_dimensions world full_path)
        else if HAS_PIL world then Returns (get_image_dimensions_pil image)
        else get_image_dimensions_basic fuel image
    end.

End Prober.

(** ** Documents

    An [Element] object lives in the store at its address; its children
    are addresses.  [iter] is [Element.iter()]: the element and its
    descendants in document order. *)

Record Element := {
  tag : string;
  attrib : gmap string string;
  children : list nat;
}.

Record Document := {
  heap : list Element;
  root : nat;
}.

Fixpoint iter (fuel : nat) (h : list Element) (id : nat) : list nat :=
  match fuel with
  | O => []
  | S fuel' =>
      id :: match h !! id with
            | Some e => flat_map (iter fuel' h) (children e)
            | None => []
            end
  end.

Definition root_iter (h : list Element) (r : nat) : list nat :=
  iter (length h) h r.

(** The tree a parser returns, stored as fresh objects: the new store and
    the address of the root. *)
Fixpoint alloc_tree (h : list Element) (t : xml_tree) : list Element * nat :=
  match t with
  | XmlNode tg at_ cs =>
      let '(h', ids) :=
        (fix alloc_all (h : list Element) (cs : list xml_tree) :=
           match cs with
           | [] => (h, [])
           | c :: cs' =>
               let '(h1, i) := alloc_tree h c in
               let '(h2, is_) := alloc_all h1 cs' in
               (h2, i :: is_)
           end) h cs in
      ((h' ++ [{| tag := tg; attrib := at_; children := ids |}])%list, length h')
  end.

Fixpoint alloc_trees (h : list Element) (ts : list xml_tree)
    : list Element * list nat :=
  match ts with
  | [] => (h, [])
  | t :: ts' =>
      let '(h1, i) := alloc_tree h t in
      let '(h2, is_) := alloc_trees h1 ts' in
      (h2, i :: is_)
  end.

Definition document_of (t : xml_tree) : Document :=
  let '(h, r) := alloc_tree [] t in {| heap := h; root := r |}.

Definition XLINK_HREF : string := "{http://www.w3.org/1999/xlink}href".
Definition SVG_G : string := "{http://www.w3.org/2000/svg}g".

(** [a or b] on two attribute look-ups. *)
Definition py_or (a b : option string) : option string :=
  match a with
  | Some s => if String.eqb s "" then b else Some s
  | None => b
  end.

Definition get_href (e : Element) : option string :=
  py_or (attrib e !! XLINK_HREF) (attrib e !! "href").

(** [float(elem.get(key, 0))]; the outer [None] is [ValueError]. *)
Definition float_attr `{PyFloat F} (e : Element) (key : string) : option F :=
  match attrib e !! key with
  | Some s => py_float s
  | None => Some f_zero
  end.

Definition set_attr (key value : string) (e : Element) : Element :=
  {| tag := tag e; attrib := <[key := value]> (attrib e); children := children e |}.

Definition del_attr (key : string) (e : Element) : Element :=
  {| tag := tag e; attrib := delete key (attrib e); children := children e |}.

(** ** Geometry fixer ([fix_image_aspect_in_svg]) *)

(** What the body of the loop does with one element. *)
Inductive fix_step :=
  | SkipNotImage
  | SkipNoHref
  | SkipBadGeometry
  | SkipEmptyBox
  | SkipFitNone
  | SkipUnknownSize
  | SkipWithinTolerance
  | Fix (fixed : Element).

Section Fixer.
Context `{PyFloat F} (world : World F).

Definition fix_element (fuel : nat) (image_elem : Element) : outcome fix_step :=
  if negb (endswith (tag image_elem) "image") then Returns SkipNotImage
  else
    match get_href image_elem with
    | None => Returns SkipNoHref
    | Some href =>
        match float_attr image_elem "x", float_attr image_elem "y",
              float_attr image_elem "width", float_attr image_elem "height" with
        | Some x, Some y, Some width, Some height =>
            if fle width f_zero || fle height f_zero then Returns SkipEmptyBox
            else
              let par := default "xMidYMid meet"
                           (attrib image_elem !! "preserveAspectRatio") in
              if contains "none" par then Returns SkipFitNone
              else
                match get_image_dimensions world fuel href with
                | Running => Running
                | Raises exn => Raises exn
                | Returns (Some img_width, Some img_height) =>
                    let mode := if contains "slice" par then "slice" else "meet" in
                    match calculate_fitted_dimensions
                            img_width img_height width height mode with
                    | None => Raises "ZeroDivisionError"
                    | Some (new_width, new_height, offset_x, offset_y) =>
                        if flt (fabs (fsub new_width width)) f_half
                           && flt (fabs (fsub new_height height)) f_half
                        then Returns SkipWithinTolerance
                        else
                          Returns (Fix
                            (del_attr "preserveAspectRatio"
                               (set_attr "height" (format_fixed 1 new_height)
                                  (set_attr "width" (format_fixed 1 new_width)
                                     (set_attr "y" (format_fixed 1 (fadd y offset_y))
                                        (set_attr "x" (format_fixed 1 (fadd x offset_x))
                                           image_elem))))))
                    end
                | Returns _ => Returns SkipUnknownSize
                end
        | _, _, _, _ => Returns SkipBadGeometry
        end
    end.

(** The loop over [root.iter()]: the store and [fixed_count]. *)
Fixpoint fix_loop (fuel : nat) (dry_run : bool) (ids : list nat)
    (h : list Element) (fixed_count : nat) : outcome (list Element * nat) :=
  match ids with
  | [] => Returns (h, fixed_count)
  | id :: ids' =>
      match h !! id with
      | None => fix_loop fuel dry_run ids' h fixed_count
      | Some image_elem =>
          match fix_element fuel image_elem with
          | Running => Running
          | Raises exn => Raises exn
          | Returns (Fix fixed) =>
              fix_loop fuel dry_run ids'
                (if dry_run then h else <[id := fixed]> h) (S fixed_count)
          | Returns _ => fix_loop fuel dry_run ids' h fixed_count
          end
      end
  end.

(** [parsed] is what [ET.parse] gave: [None] when it raised.  The
    result is [fixed_count] and the document as it is on disk after the
    call. *)
Definition fix_image_aspect_in_svg (fuel : nat) (parsed : option Document)
    (dry_run : bool) : outcome (nat * option Document) :=
  match parsed with
  | None => Returns (0%nat, None)
  | Some doc =>
      match fix_loop fuel dry_run (root_iter (heap doc) (root doc)) (heap doc) 0 with
      | Returns (h, fixed_count) =>
          Returns (fixed_count, Some {| heap := h; root := root doc |})
      | Raises exn => Raises exn
      | Running => Running
      end
  end.

End Fixer.

(** ** Asset embedder ([embed_images_in_svg]) *)

Definition mime_map : gmap string string :=
  list_to_map [("png", "image/png"); ("jpg", "image/jpeg"); ("jpeg", "image/jpeg");
               ("gif", "image/gif"); ("webp", "image/webp"); ("svg", "image/svg+xml")].

Definition get_mime_type (filename : list ascii) : string :=
  let ext := text_of (default [] (last (split_on "." (lower_char <$> filename)))) in
  default "application/octet-stream" (mime_map !! ext).

Definition get_file_size_str `{PyFloat F} (size_bytes : nat) : option string :=
  let size := Z.of_nat size_bytes in
  let digits := text_of (N_digits (N.of_nat size_bytes)) in
  if size <? 1024 then Some (digits +:+ " B")
  else if size <? 1024 * 1024 then
    v ← fdiv (float_of_int (F:=F) size) (float_of_int 1024);
    Some (format_fixed 1 v +:+ " KB")
  else
    v ← fdiv (float_of_int (F:=F) size) (float_of_int (1024 * 1024));
    Some (format_fixed 1 v +:+ " MB").

(** The lines the embedder prints, by kind; a preview line carries the
    size that [get_file_size_str] renders. *)
Inductive message :=
  | WarnNotFound (href : string)
  | Preview (href : string) (img_size : nat)
  | OkInlined (href : string)
  | WarnInlineFailed (href : string)
  | OkEmbedded (href : string)
  | ErrorEmbed (href : string).

Record embed_state := {
  store : list Element;
  images_embedded : nat;
  modified : bool;
  printed : list message;
}.

Definition GEOMETRY_KEYS : list string :=
  ["x"; "y"; "width"; "height"; "href"; XLINK_HREF; "preserveAspectRatio"].

(** [parent_map.get(elem)]: the last element in document order that has
    [elem] among its children. *)
Definition parent_of (h : list Element) (r id : nat) : option nat :=
  last (List.filter
          (λ p, match h !! p with
                | Some e => bool_decide (id ∈ children e)
                | None => false
                end)
          (root_iter h r)).

(** [parent.insert(idx, new); parent.remove(old)] with [idx] the first
    index of [old]. *)
Fixpoint replace_first (old new : nat) (l : list nat) : list nat :=
  match l with
  | [] => []
  | x :: l' => if decide (x = old) then new :: l' else x :: replace_first old new l'
  end.

Definition set_children (cs : list nat) (e : Element) : Element :=
  {| tag := tag e; attrib := attrib e; children := cs |}.

Definition entry_size (entry : fs_entry) : nat :=
  match entry with
  | FsFile content => length content
  | FsOther st_size => st_size
  end.

Section Embedder.
Context `{PyFloat F} (world : World F).

(** [bool(v)] for what [get_svg_dimensions] returned. *)
Definition truthy (v : option F) : bool :=
  match v with
  | Some x => negb (fle x f_zero && fle f_zero x)
  | None => false
  end.

Definition transform_text (x y sx sy : F) : string :=
  "translate(" +:+ float_str x +:+ "," +:+ float_str y +:+ ") scale("
  +:+ format_fixed 4 sx +:+ "," +:+ format_fixed 4 sy +:+ ")".

(** The [try] block that inlines an SVG target; [None] is an exception
    inside it.  The new objects are stored only when the element has a
    parent to hang them on. *)
Definition inline_svg (r : nat) (st : embed_state) (id : nat)
    (img_elem : Element) (href full_path : string) : option embed_state :=
  sub_root ← ET_parse world full_path;
  x ← float_attr img_elem "x";
  y ← float_attr img_elem "y";
  w ← float_attr img_elem "width";
  h ← float_attr img_elem "height";
  let '(sw, sh) := get_svg_dimensions world full_path in
  '(sx, sy) ← (if truthy sw && truthy sh then
                 sw' ← sw; sh' ← sh;
                 sx ← fdiv w sw'; sy ← fdiv h sh'; Some (sx, sy)
               else Some (f_one, f_one));
  let new_attrib :=
    <["transform" := transform_text x y sx sy]>
      (filter (λ kv, kv.1 ∉ GEOMETRY_KEYS) (attrib img_elem)) in
  match parent_of (store st) r id with
  | Some parent =>
      let '(XmlNode _ _ sub_children) := sub_root in
      let '(h1, child_ids) := alloc_trees (store st) sub_children in
      let new_id := length h1 in
      let h2 := (h1 ++ [{| tag := SVG_G; attrib := new_attrib;
                           children := child_ids |}])%list in
      let h3 := match h2 !! parent with
                | Some p =>
                    <[parent := set_children
                                  (replace_first id new_id (children p)) p]> h2
                | None => h2
                end in
      Some {| store := h3;
              images_embedded := S (images_embedded st);
              modified := true;
              printed := (printed st ++ [OkInlined href])%list |}
  | None => Some st
  end.

(** The Base64 branch. *)
Definition embed_base64 (st : embed_state) (id : nat) (img_elem : Element)
    (href full_path : string) (entry : fs_entry) : embed_state :=
  match entry with
  | FsFile content =>
      let b64_data := text_of (b64encode content) in
      let mime_type := get_mime_type (path_name full_path) in
      let new_href := "data:" +:+ mime_type +:+ ";base64," +:+ b64_data in
      let key := match attrib img_elem !! XLINK_HREF with
                 | Some v => if String.eqb v "" then "href" else XLINK_HREF
                 | None => "href"
                 end in
      {| store := <[id := set_attr key new_href img_elem]> (store st);
         images_embedded := S (images_embedded st);
         modified := true;
         printed := (printed st ++ [OkEmbedded href])%list |}
  | FsOther _ =>
      {| store := store st;
         images_embedded := images_embedded st;
         modified := modified st;
         printed := (printed st ++ [ErrorEmbed href])%list |}
  end.

Definition say (m : message) (st : embed_state) : embed_state :=
  {| store := store st; images_embedded := images_embedded st;
     modified := modified st; printed := (printed st ++ [m])%list |}.

(** One turn of the loop over [images_to_process]. *)
Definition embed_image (r : nat) (dry_run : bool) (st : embed_state) (id : nat)
    : embed_state :=
  match store st !! id with
  | None => st
  | Some img_elem =>
      match get_href img_elem with
      | None => st
      | Some href =>
          if String.eqb href "" || startswith href "data:" then st
          else
            let full_path := resolve_unquoted world href in
            match fs world full_path with
            | None => say (WarnNotFound href) st
            | Some entry =>
                if dry_run then
                  {| store := store st;
                     images_embedded := S (images_embedded st);
                     modified := modified st;
                     printed := (printed st
                                 ++ [Preview href (entry_size entry)])%list |}
                else if String.eqb (lower (path_suffix full_path)) ".svg" then
                  match inline_svg r st id img_elem href full_path with
                  | Some st' => st'
                  | None =>
                      embed_base64 (say (WarnInlineFailed href) st) id img_elem
                        href full_path entry
                  end
                else embed_base64 st id img_elem href full_path entry
            end
      end
  end.

Definition images_to_process (h : list Element) (r : nat) : list nat :=
  List.filter (λ id, match h !! id with
                     | Some elem => endswith (tag elem) "image"
                     | None => false
                     end)
    (root_iter h r).

(** [parsed] is what [ET.parse] gave.  The result is [images_embedded],
    the document as it is on disk after the call, and the lines printed
    for the images. *)
Definition embed_images_in_svg (parsed : option Document) (dry_run : bool)
    : nat * option Document * list message :=
  match parsed with
  | None => (0%nat, None, [])
  | Some doc =>
      let st := foldl (embed_image (root doc) dry_run)
                  {| store := heap doc; images_embedded := 0;
                     modified := false; printed := [] |}
                  (images_to_process (heap doc) (root doc)) in
      (images_embedded st, Some {| heap := store st; root := root doc |},
       printed st)
  end.

End Embedder.
(** ** Well-formed inputs of the prober, for the statements below *)

(** A JPEG marker segment: a marker that stands alone, or a marker with
    its two length bytes and its payload. *)
Inductive jpeg_segment :=
  | Standalone (m : byte)
  | Segment (m : byte) (len payload : list byte).

Definition segment_bytes (s : jpeg_segment) : list byte :=
  match s with
  | Standalone m => [xff; m]
  | Segment m len payload => xff :: m :: len ++ payload
  end.

Definition segments_bytes (segs : list jpeg_segment) : list byte :=
  concat (segment_bytes <$> segs).

Definition is_sof (m : Z) : bool := (m =? 192) || (m =? 194).
Definition no_length (m : Z) : bool := (m =? 216) || ((208 <=? m) && (m <=? 215)).



Definition decimal_chars (ip : list ascii) (dot : bool) (fp : list ascii) : list ascii :=
  ip ++ (if dot then "."%char :: fp else []).





(** A character at which a run of digits ends. *)
Definition ends_digits (r : list ascii) : Prop :=
  match r with
  | [] => True
  | c :: _ => is_digit c = false ∧ c ≠ "_"%char
  end.

(** Where a greedy run of a class stops. *)
Definition stops (cls : N → bool) (rest : list N) : Prop :=
  match rest with
  | [] => True
  | c :: _ => cls c = false
  end.









(** The index at which [p] first occurs in [s]. *)
Fixpoint lit_at (p s : list N) : bool :=
  match p, s with
  | [], _ => true
  | a :: p', b :: s' => (a =? b)%N && lit_at p' s'
  | _ :: _, [] => false
  end.


(** ** One decimal place in exact arithmetic *)

(** The tenths that [format(v, ".1f")] shows for a [v] that is not
    negative. *)
Definition tenths (v : Q) : Z := round_half_even (Qnum v * 10) (Qden v).

(** ** Elements with a given aspect-ratio directive *)

Definition PAR : string := "preserveAspectRatio".


(** ** Sample worlds and documents *)

(** A world without PIL and without [project_utils] (the fall-back
    [get_svg_dimensions] of the tools), with the given files and parsed
    SVG files; paths resolve to themselves. *)
Definition table_world {F} (files : list (string * fs_entry))
    (svgs : list (string * xml_tree)) : World F :=
  {| HAS_PIL := false;
     pil_size := λ _, None;
     resolve := id;
     resolve_unquoted := id;
     fs := λ p, (list_to_map files : gmap string fs_entry) !! p;
     get_svg_dimensions := λ _, (None, None);
     ET_parse := λ p, (list_to_map svgs : gmap string xml_tree) !! p |}.

Definition without_pil {F} (w : World F) : World F :=
  {| HAS_PIL := false; pil_size := pil_size w; resolve := resolve w;
     resolve_unquoted := resolve_unquoted w; fs := fs w;
     get_svg_dimensions := get_svg_dimensions w; ET_parse := ET_parse w |}.

Definition image_node (attrs : list (string * string)) : xml_tree :=
  XmlNode "{http://www.w3.org/2000/svg}image" (list_to_map attrs) [].

Definition image_element (attrs : list (string * string)) : Element :=
  {| tag := "{http://www.w3.org/2000/svg}image"; attrib := list_to_map attrs;
     children := [] |}.

Definition svg_node (cs : list xml_tree) : xml_tree :=
  XmlNode "{http://www.w3.org/2000/svg}svg" ∅ cs.

(** The first 29 bytes of a PNG image 123 wide and 10000 high. *)
Definition tall_png : list byte :=
  PNG_MAGIC ++ [x00; x00; x00; x0d; x49; x48; x44; x52;
                x00; x00; x00; x7b; x00; x00; x27; x10;
                x08; x02; x00; x00; x00].

(** A JPEG stream that is a frame header for an image 32 wide, 16 high. *)
Definition tiny_jpeg : list byte :=
  [xff; xd8; xff; xc0; x00; x11; x08; x00; x10; x00; x20; x03; x01; x22; x00].

Definition tiny_jpeg_uri : string := "data:image/jpeg;base64,/9j/wAARCAAQACADASIA".

Definition sample_segments : list jpeg_segment :=
  [Segment xe0 [x00; x04] [x4a; x46]; Standalone xd0; Segment xdb [x00; x02] []].

Definition b64 (n : Z) : float := float_of_int n.




(** ** What the embedder finds at an element *)

(** The reference the embedder resolves against the file system: none
    when the element has no reference, an empty one or an inline one. *)
Definition file_ref (e : Element) : option string :=
  match get_href e with
  | Some href =>
      if String.eqb href "" || startswith href "data:" then None else Some href
  | None => None
  end.

(** The reference leads to an existing file whose suffix is [.svg]. *)
Definition svg_target {F} (w : World F) (e : Element) : bool :=
  match file_ref e with
  | Some href =>
      match fs w (resolve_unquoted w href) with
      | Some _ => String.eqb (lower (path_suffix (resolve_unquoted w href))) ".svg"
      | None => false
      end
  | None => false
  end.

(** The reference leads to a file that can be read. *)
Definition embeddable {F} (w : World F) (e : Element) : bool :=
  match file_ref e with
  | Some href =>
      match fs w (resolve_unquoted w href) with
      | Some (FsFile _) => true
      | _ => false
      end
  | None => false
  end.

Definition is_image (e : Element) : bool := endswith (tag e) "image".

(** No image element of the store refers to an existing SVG file. *)
Definition no_svg_image_targets {F} (w : World F) (h : list Element) : Prop :=
  ∀ id e, h !! id = Some e → is_image e = true → svg_target w e = false.

(** At an address: the element there has no SVG target; and moreover
    nothing that a turn of the loop would embed. *)
Definition plain_at {F} (w : World F) (h : list Element) (id : nat) : Prop :=
  ∀ e, h !! id = Some e → svg_target w e = false.

Definition settled_at {F} (w : World F) (h : list Element) (id : nat) : Prop :=
  ∀ e, h !! id = Some e → svg_target w e = false ∧ embeddable w e = false.

(** Tags and children: what [iter] depends on. *)
Definition shape (h : list Element) : list (string * list nat) :=
  (λ e, (tag e, children e)) <$> h.

(** Sample documents for the embedder: a reference to a missing file next
    to one to an existing file, and an SVG file that itself places an
    image. *)
Definition pic : list byte := [x01; x02; x03].

Definition nested_svg : xml_tree :=
  svg_node [image_node [("href", "pic.png"); ("width", "10"); ("height", "10")]].

Definition sample_files {F} : World F :=
  table_world [("inner.svg", FsFile (bytes_of "<svg/>")); ("pic.png", FsFile pic)]
    [("inner.svg", nested_svg)].

Definition missing_and_valid : Document :=
  document_of (svg_node [image_node [("href", "missing.png")];
                         image_node [(XLINK_HREF, "pic.png")]]).


(** ** What the fixer finds at an element *)







(** Sample documents for the fixer: an image placed in a box 100 by
    100. *)

(** The first 29 bytes of a PNG image 200 wide and 100 high. *)
Definition wide_png : list byte :=
  PNG_MAGIC ++ [x00; x00; x00; x0d; x49; x48; x44; x52;
                x00; x00; x00; xc8; x00; x00; x00; x64;
                x08; x02; x00; x00; x00].

Definition image_files {F} : World F :=
  table_world [("tall.png", FsFile tall_png); ("wide.png", FsFile wide_png)] [].

Definition square_box (href : string) : Document :=
  document_of (svg_node [image_node [("href", href); ("x", "0"); ("y", "0");
                                     ("width", "100"); ("height", "100")]]).

(** ** Bytes, enumerated *)

Definition all_bytes : list byte := (λ n, to_byte (N.of_nat n)) <$> seq 0 256.

(** ** The embedder's report *)

(** The lines that go with an increment of [images_embedded], and the
    lines a dry run can print. *)
Definition counted (m : message) : bool :=
  match m with
  | Preview _ _ | OkInlined _ | OkEmbedded _ => true
  | _ => false
  end.

Definition dry_line (m : message) : bool :=
  match m with
  | Preview _ _ | WarnNotFound _ => true
  | _ => false
  end.

(** ** Elements across a run of the embedder *)



(** ** Elements across a run of the fixer *)

(** [e'] is [e] but for its geometry and its aspect-ratio directive. *)
Definition same_but_geometry (e e' : Element) : Prop :=
  tag e' = tag e ∧ children e' = children e ∧
  ∀ k, k ∉ ["x"; "y"; "width"; "height"; PAR] → attrib e' !! k = attrib e !! k.

(** A world whose only file is a PNG signature with nothing after it, and
    a document that places it. *)
Definition truncated_files {F} : World F :=
  table_world [("cut.png", FsFile PNG_MAGIC)] [].

(** ** Files on which the marker loop cannot advance *)

(** The file ends with a marker that is followed, in a complete file, by
    a length: FF and a byte that is none of C0, C2, D9, D8 and D0-D7. *)
Definition open_marker_at_end (f : list byte) : bool :=
  match rev f with
  | m :: ff :: _ =>
      (byte_val ff =? 255) && negb (is_sof (byte_val m))
      && negb (byte_val m =? 217) && negb (no_length (byte_val m))
  | _ => false
  end.

(** * The aspect-fit calculator *)

Lemma calculate_refines_fit_spec `{PyFloat F} (iw ih bw bh : F) :
  calculate_fitted_dimensions iw ih bw bh "meet" = fit_spec false iw ih bw bh ∧
  calculate_fitted_dimensions iw ih bw bh "slice" = fit_spec true iw ih bw bh.
Proof.
  unfold calculate_fitted_dimensions, fit_spec, clamp_to_width, clamp_to_height, centre.
  split; simpl.
  - destruct (fdiv iw ih) as [ir|]; simpl; [|done].
    destruct (fdiv bw bh) as [br|]; simpl; [|done].
    destruct (flt br ir); simpl; [|done].
    destruct (fdiv bw ir); simpl; done.
  - destruct (fdiv iw ih) as [ir|]; simpl; [|done].
    destruct (fdiv bw bh) as [br|]; simpl; [|done].
    destruct (flt br ir); simpl; [done|].
    destruct (fdiv bw ir); simpl; done.
Qed.

(** C1: under meet the calculator clamps the width to the box when the
    image's ratio exceeds the box's and the height otherwise, slice takes
    the other branch, and both offsets are half the difference between
    box and fitted side, negative or not; an image 2 by 1 in a box 100 by
    100 gives 100 by 50 at (0, 25) under meet and 200 by 100 at (-50, 0)
    under slice. *)
Theorem calculate_fitted_dimensions_spec :
  (∀ `{PyFloat F} (iw ih bw bh : F),
     calculate_fitted_dimensions iw ih bw bh "meet" = fit_spec false iw ih bw bh ∧
     calculate_fitted_dimensions iw ih bw bh "slice" = fit_spec true iw ih bw bh) ∧
  calculate_fitted_dimensions (b64 2) (b64 1) (b64 100) (b64 100) "meet"
    = Some (b64 100, b64 50, b64 0, b64 25) ∧
  calculate_fitted_dimensions (b64 2) (b64 1) (b64 100) (b64 100) "slice"
    = Some (b64 200, b64 100, b64 (-50), b64 0).
Proof.
  split; [intros; apply calculate_refines_fit_spec|].
  split; vm_compute; reflexivity.
Qed.

Lemma clamped_axis `{PyFloat F} (iw ih bw bh : F) mode w h ox oy :
  calculate_fitted_dimensions iw ih bw bh mode = Some (w, h, ox, oy) →
  w = bw ∨ h = bh.
Proof.
  unfold calculate_fitted_dimensions. intros Hc.
  destruct (fdiv iw ih) as [ir|]; simpl in Hc; [|done].
  destruct (fdiv bw bh) as [br|]; simpl in Hc; [|done].
  destruct (String.eqb mode "meet"), (flt br ir); simpl in Hc;
    try (destruct (fdiv bw ir) as [nh|]; simpl in Hc; [|done]);
    repeat match type of Hc with
    | context [fdiv ?a ?b] => destruct (fdiv a b); simpl in Hc; [|done]
    end; injection Hc as <- <- _ _; auto.
Qed.

Lemma exact_div (x y : Q) : (0 < y)%Q → fdiv x y = Some (x / y)%Q.
Proof.
  intros Hy. simpl. unfold Exact.div.
  destruct (Qeq_bool y 0) eqn:E; [|done].
  apply Qeq_bool_iff in E. rewrite E in Hy. by apply Qlt_irrefl in Hy.
Qed.

Lemma exact_two : f_two (F:=Q) = 2%Q.
Proof. reflexivity. Qed.

Lemma exact_lt (x y : Q) : flt x y = true ↔ (x < y)%Q.
Proof.
  simpl. unfold Exact.lt. rewrite negb_true_iff.
  split.
  - intros E. apply Qnot_le_lt. intros Hle. apply Qle_bool_iff in Hle. congruence.
  - intros Hlt. destruct (Qle_bool y x) eqn:E; [|done].
    apply Qle_bool_iff in E. exfalso. by apply (Qlt_not_le x y).
Qed.

Lemma exact_lt_false (x y : Q) : flt x y = false ↔ (y <= x)%Q.
Proof.
  simpl. unfold Exact.lt. rewrite negb_false_iff. apply Qle_bool_iff.
Qed.

Lemma Qdiv_pos (x y : Q) : (0 < x → 0 < y → 0 < x / y)%Q.
Proof. intros. apply Qlt_shift_div_l; [done|]. by rewrite Qmult_0_l. Qed.

(** what the calculator returns in exact arithmetic *)
Lemma exact_fit (iw ih bw bh : Q) (mode : string) :
  (0 < iw → 0 < ih → 0 < bw → 0 < bh →
   ∃ w h, calculate_fitted_dimensions iw ih bw bh mode
            = Some (w, h, (bw - w) / 2, (bh - h) / 2) ∧
     (w, h) = (if xorb (flt (bw / bh) (iw / ih)) (negb (String.eqb mode "meet"))
               then (bw, bw / (iw / ih)) else (bh * (iw / ih), bh)))%Q.
Proof.
  intros Hiw Hih Hbw Hbh. unfold calculate_fitted_dimensions.
  rewrite !exact_div by done. cbn [mbind option_bind].
  pose proof (Qdiv_pos _ _ Hiw Hih) as Hr.
  destruct (String.eqb mode "meet"), (flt (bw / bh)%Q (iw / ih)%Q); cbn [xorb negb];
    rewrite ?(exact_div bw) by done; cbn [mbind option_bind];
    rewrite !exact_two, !exact_div by done; cbn [mbind option_bind]; eauto.
Qed.

Lemma Qdiv_def_eq (x y : Q) : (0 < y → (x / y) * y == x)%Q.
Proof. intros Hy. field. intros E. rewrite E in Hy. by apply Qlt_irrefl in Hy. Qed.

(** C2, as amended: in exact arithmetic the rectangle fitted under meet
    is no larger than the box on either axis, the one fitted under slice
    no smaller, each with equality on one axis; in floating point one
    returned side is the box's own. *)
Theorem fit_bounds (iw ih bw bh : Q) :
  (0 < iw)%Q → (0 < ih)%Q → (0 < bw)%Q → (0 < bh)%Q →
  (∃ w h ox oy,
     calculate_fitted_dimensions iw ih bw bh "meet" = Some (w, h, ox, oy) ∧
     (w <= bw ∧ h <= bh ∧ (w == bw ∨ h == bh))%Q) ∧
  (∃ w h ox oy,
     calculate_fitted_dimensions iw ih bw bh "slice" = Some (w, h, ox, oy) ∧
     (bw <= w ∧ bh <= h ∧ (w == bw ∨ h == bh))%Q) ∧
  (∀ (a b c d : float) mode w h ox oy,
     calculate_fitted_dimensions a b c d mode = Some (w, h, ox, oy) →
     w = c ∨ h = d).
Proof.
  intros Hiw Hih Hbw Hbh.
  pose proof (Qdiv_pos _ _ Hiw Hih) as Hr.
  pose proof (Qdiv_def_eq bw bh Hbh) as Eb.
  pose proof (Qdiv_def_eq bw _ Hr) as Eh.
  set (r := (iw / ih)%Q) in *. set (b := (bw / bh)%Q) in *.
  set (h' := (bw / r)%Q) in *.
  split; [|split].
  - destruct (exact_fit iw ih bw bh "meet") as (w & h & -> & Ewh); try done.
    exists w, h, ((bw - w) / 2)%Q, ((bh - h) / 2)%Q. split; [done|].
    fold r b in Ewh. cbn [String.eqb negb] in Ewh.
    change (String.eqb "meet" "meet") with true in Ewh. cbn [negb xorb] in Ewh.
    destruct (flt b r) eqn:E.
    + apply exact_lt in E. rewrite xorb_false_r in Ewh.
      injection Ewh as -> ->. fold h'.
      split; [apply Qle_refl|]. split; [|left; reflexivity]. nra.
    + apply exact_lt_false in E. rewrite xorb_false_r in Ewh.
      injection Ewh as -> ->.
      split; [nra|]. split; [apply Qle_refl|right; reflexivity].
  - destruct (exact_fit iw ih bw bh "slice") as (w & h & -> & Ewh); try done.
    exists w, h, ((bw - w) / 2)%Q, ((bh - h) / 2)%Q. split; [done|].
    fold r b in Ewh.
    change (String.eqb "slice" "meet") with false in Ewh. cbn [negb] in Ewh.
    destruct (flt b r) eqn:E.
    + apply exact_lt in E. cbn [xorb] in Ewh.
      injection Ewh as -> ->.
      split; [nra|]. split; [apply Qle_refl|right; reflexivity].
    + apply exact_lt_false in E. cbn [xorb] in Ewh.
      injection Ewh as -> ->. fold h'.
      split; [apply Qle_refl|]. split; [|left; reflexivity]. nra.
  - intros a b' c d mode w h ox oy. apply clamped_axis.
Qed.

Lemma fit_bounds_witness :
  (∃ w h ox oy,
     calculate_fitted_dimensions 2%Q 1%Q 100%Q 100%Q "meet" = Some (w, h, ox, oy) ∧
     (w <= 100 ∧ h <= 100 ∧ (w == 100 ∨ h == 100))%Q) ∧
  (∃ w h ox oy,
     calculate_fitted_dimensions 2%Q 1%Q 100%Q 100%Q "slice" = Some (w, h, ox, oy) ∧
     (100 <= w ∧ 100 <= h ∧ (w == 100 ∨ h == 100))%Q) ∧
  (∀ (a b c d : float) mode w h ox oy,
     calculate_fitted_dimensions a b c d mode = Some (w, h, ox, oy) →
     w = c ∨ h = d).
Proof. apply (fit_bounds 2 1 100 100); reflexivity. Defined.

Lemma fit_meet_exceeds_box_binary64 :
  ∃ w h ox oy,
    calculate_fitted_dimensions (b64 29) (b64 7) (b64 29) (b64 7) "meet"
      = Some (w, h, ox, oy) ∧
    fle w (b64 29) = false ∧ flt (b64 29) w = true.
Proof. vm_compute. eauto 10. Qed.

(** * The signature decoders *)

Section ProberFacts.
Context `{PyFloat F}.






End ProberFacts.


Lemma list_length_2 {A} (l : list A) : length l = 2%nat → ∃ a b, l = [a; b].
Proof. destruct l as [|a [|b [|]]]; try done. eauto. Qed.





Lemma jpeg_scan_hangs `{PyFloat F} (fuel : nat) :
  jpeg_scan (F:=F) fuel [xff; xd8; xff; xe0] 2 = Running.
Proof. induction fuel as [|fuel IH]; [done|]. exact IH. Qed.

(** C8 (the code departs from the claim): on a JPEG stream that ends
    after a marker the scan never returns, whatever the fuel, and a PNG
    signature with nothing after it gives 0 by 0 instead of unknown. *)
Theorem truncated_jpeg_never_returns (fuel : nat) :
  get_image_dimensions_basic (F:=float) fuel (FsFile [xff; xd8; xff; xe0]) = Running ∧
  get_image_dimensions_basic (F:=float) fuel (FsFile PNG_MAGIC)
  = Returns (known 0 0).
Proof. split; [apply (jpeg_scan_hangs fuel)|reflexivity]. Qed.

(** C4 (the code departs from the claim): without PIL an inline JPEG is
    not decoded.  The payload of [tiny_jpeg_uri] is the stream
    [tiny_jpeg]; read from a file it gives 32 by 16, read from the data
    URI it gives unknown. *)
Theorem inline_jpeg_unknown_without_pil `{PyFloat F} (w : World F) (fuel : nat) :
  tiny_jpeg_uri = "data:image/jpeg;base64," +:+ text_of (b64encode tiny_jpeg) ∧
  get_image_dimensions_basic (F:=F) (S fuel) (FsFile tiny_jpeg) = Returns (known 32 16) ∧
  get_image_dimensions_from_base64 (without_pil w) tiny_jpeg_uri = unknown ∧
  get_image_dimensions (without_pil w) fuel tiny_jpeg_uri = Returns unknown.
Proof. repeat split; reflexivity. Qed.

(** * Reading decimal numerals *)

Lemma chars_text_of (l : list ascii) : chars (text_of l) = l.
Proof. apply list_ascii_of_string_of_list_ascii. Qed.

Lemma digit_tail_run (ds r : list ascii) :
  forallb is_digit ds = true → ends_digits r → digit_tail (ds ++ r) = (ds, r).
Proof.
  intros Hds Hr. induction ds as [|d ds IH]; simpl in *.
  - destruct r as [|c r]; [done|]. destruct Hr as [Hc Hu]. simpl. rewrite Hc.
    destruct (Ascii.eqb_spec c "_"); [done|done].
  - apply andb_prop in Hds as [Hd Hds]. rewrite Hd, IH by done. done.
Qed.

Lemma digitpart_run (ds r : list ascii) :
  ds ≠ [] → forallb is_digit ds = true → ends_digits r →
  digitpart (ds ++ r) = Some (ds, r).
Proof.
  intros Hne Hds Hr. destruct ds as [|d ds]; [done|]. simpl in *.
  apply andb_prop in Hds as [Hd Hds]. rewrite Hd, digit_tail_run by done. done.
Qed.

Lemma digitpart_none (r : list ascii) :
  match r with [] => True | c :: _ => is_digit c = false end → digitpart r = None.
Proof. destruct r as [|c r]; [done|]. simpl. by intros ->. Qed.

Lemma is_digit_code (c : ascii) : is_digit c = true ↔ (48 ≤ code c ≤ 57)%N.
Proof.
  unfold is_digit. rewrite andb_true_iff, !N.leb_le. done.
Qed.

(** Settles each comparison on a character code that [lia] can decide
    from the hypotheses, without splitting cases. *)
Ltac decide_codes :=
  repeat match goal with
         | |- context [(?a <=? ?b)%N] =>
             first [ replace (a <=? b)%N with true by (symmetry; apply N.leb_le; lia)
                   | replace (a <=? b)%N with false by (symmetry; apply N.leb_gt; lia) ]
         | |- context [(?a =? ?b)%N] =>
             first [ replace (a =? b)%N with true by (symmetry; apply N.eqb_eq; lia)
                   | replace (a =? b)%N with false by (symmetry; apply N.eqb_neq; lia) ]
         end; try reflexivity.

Lemma digit_not_space (c : ascii) : is_digit c = true → is_space c = false.
Proof.
  intros Hc%is_digit_code. unfold is_space. cbn zeta. decide_codes.
Qed.

Lemma code_inj (a b : ascii) : code a = code b → a = b.
Proof.
  unfold code. intros E. rewrite <- (ascii_N_embedding a), <- (ascii_N_embedding b).
  by rewrite E.
Qed.

Lemma digit_neq (c d : ascii) :
  is_digit c = true → ¬ (48 ≤ code d ≤ 57)%N → c ≠ d.
Proof. intros Hc%is_digit_code Hd ->. done. Qed.

Lemma lstrip_id (s : list ascii) :
  Forall (λ c, is_space c = false) s → lstrip s = s.
Proof. destruct 1 as [|c s Hc _]; [done|]. simpl. by rewrite Hc. Qed.

Lemma strip_id (s : list ascii) :
  Forall (λ c, is_space c = false) s → strip s = s.
Proof.
  intros Hs. unfold strip. rewrite (lstrip_id s) by done.
  rewrite (lstrip_id (rev s)); [apply rev_involutive|].
  rewrite Forall_forall in *. intros c Hc. apply Hs.
  by apply list_elem_of_In, in_rev, list_elem_of_In.
Qed.

Lemma lower_digit (c : ascii) : is_digit c = true → lower_char c = c.
Proof.
  intros Hc%is_digit_code. unfold lower_char. cbn zeta.
  destruct (N.leb_spec 65 (code c)); [lia|done].
Qed.

(** A digit string is not one of the words [float] knows. *)
Lemma digits_not_word (d : ascii) (ds : list ascii) (word : string) :
  is_digit d = true →
  match word with
  | String c _ => ¬ (48 ≤ code c ≤ 57)%N
  | EmptyString => True
  end →
  String.eqb (text_of (lower_char <$> d :: ds)) word = false.
Proof.
  intros Hd Hw. simpl. rewrite lower_digit by done.
  destruct word as [|c word]; [done|]. simpl.
  destruct (Ascii.eqb_spec d c) as [->|]; [|done].
  apply is_digit_code in Hd. done.
Qed.

Lemma digits_not_space (ds : list ascii) :
  forallb is_digit ds = true → Forall (λ c, is_space c = false) ds.
Proof.
  intros Hds. apply Forall_forall. intros c Hc. apply digit_not_space.
  rewrite forallb_forall in Hds. by apply Hds, list_elem_of_In.
Qed.

Lemma decimal_not_space (ip fp : list ascii) (dot : bool) :
  forallb is_digit ip = true → forallb is_digit fp = true →
  Forall (λ c, is_space c = false) (decimal_chars ip dot fp).
Proof.
  intros Hip Hfp. unfold decimal_chars. apply Forall_app. split.
  - by apply digits_not_space.
  - destruct dot; [|done]. constructor; [done|by apply digits_not_space].
Qed.

Lemma take_sign_digit (d : ascii) (s : list ascii) :
  is_digit d = true → take_sign (d :: s) = (false, d :: s).
Proof.
  intros Hd. unfold take_sign.
  destruct (Ascii.eqb_spec d "-") as [->|]; [done|].
  destruct (Ascii.eqb_spec d "+") as [->|]; done.
Qed.

Lemma number_decimal (ip fp : list ascii) (dot : bool) :
  ip ≠ [] → forallb is_digit ip = true → forallb is_digit fp = true →
  (dot = false → fp = []) →
  number (decimal_chars ip dot fp) = Some (ip, fp, []).
Proof.
  intros Hne Hip Hfp Hdot. unfold number, decimal_chars.
  destruct dot.
  - rewrite digitpart_run; [|done..|by split].
    destruct fp as [|f fp].
    + by rewrite digitpart_none.
    + change (Ascii.eqb "." ".") with true. cbn iota.
      rewrite <- (app_nil_r (f :: fp)) at 1.
      by rewrite digitpart_run.
  - rewrite Hdot by done. by rewrite digitpart_run.
Qed.

Lemma parse_float_literal_decimal (neg : bool) (ip fp : list ascii) (dot : bool) :
  ip ≠ [] → forallb is_digit ip = true → forallb is_digit fp = true →
  (dot = false → fp = []) →
  parse_float_literal
    (text_of ((if neg then ["-"%char] else []) ++ decimal_chars ip dot fp))
  = Some (LitDec neg (digits_value (ip ++ fp)) (- Z.of_nat (length fp))).
Proof.
  intros Hne Hip Hfp Hdot. unfold parse_float_literal.
  rewrite chars_text_of, strip_id.
  2:{ apply Forall_app. split; [by destruct neg; repeat constructor|].
      by apply decimal_not_space. }
  destruct ip as [|d ip]; [done|].
  pose proof Hip as Hip'. simpl in Hip'. apply andb_prop in Hip' as [Hd _].
  assert (take_sign ((if neg then ["-"%char] else []) ++ decimal_chars (d :: ip) dot fp)
          = (neg, decimal_chars (d :: ip) dot fp)) as ->.
  { destruct neg; [done|]. by apply take_sign_digit. }
  assert (∀ word, match word with
                  | String c _ => ¬ (48 ≤ code c ≤ 57)%N
                  | EmptyString => True
                  end →
          String.eqb (text_of (lower_char <$> decimal_chars (d :: ip) dot fp)) word
          = false) as Hword.
  { intros word Hw. by apply digits_not_word. }
  rewrite !Hword by (unfold code; simpl; lia). cbn [orb].
  rewrite number_decimal by done. cbn [mbind option_bind exponent mret].
  simpl. repeat f_equal; lia.
Qed.

Lemma py_float_decimal `{PyFloat F} (neg : bool) (ip fp : list ascii) (dot : bool) :
  ip ≠ [] → forallb is_digit ip = true → forallb is_digit fp = true →
  (dot = false → fp = []) →
  py_float (F:=F)
    (text_of ((if neg then ["-"%char] else []) ++ decimal_chars ip dot fp))
  = Some (float_of_decimal neg (digits_value (ip ++ fp)) (- Z.of_nat (length fp))).
Proof.
  intros. unfold py_float. by rewrite parse_float_literal_decimal.
Qed.

(** * The view box of an inline SVG *)

Section Matching.
Context {R : Type}.

Lemma re_star_run (k : list N → nat → option R) (cls : N → bool)
    (xs rest : list N) (pos : nat) (r : R) :
  forallb cls xs = true → stops cls rest →
  k rest (pos + length xs)%nat = Some r →
  re_star k cls (xs ++ rest) pos = Some r.
Proof.
  revert pos. induction xs as [|x xs IH]; intros pos Hxs Hrest Hk.
  - simpl in *. rewrite Nat.add_0_r in Hk.
    destruct rest as [|c rest]; simpl; [done|]. simpl in Hrest. by rewrite Hrest.
  - simpl in Hxs. apply andb_prop in Hxs as [Hx Hxs]. simpl. rewrite Hx.
    rewrite (IH (S pos)); [done..|].
    simpl in Hk. by rewrite <- Nat.add_succ_comm in Hk.
Qed.
End Matching.

Section Items.
Implicit Types (p : list re_item) (s : list N) (pos : nat)
  (o : list nat) (g : list (nat * nat)) (r : list (nat * nat) * nat).



Lemma match_plus cls p xs rest pos o g r :
  xs ≠ [] → forallb cls xs = true → stops cls rest →
  re_items p rest (pos + length xs)%nat o g = Some r →
  re_items (RePlus cls :: p) (xs ++ rest) pos o g = Some r.
Proof.
  intros Hne Hxs Hrest Hr. destruct xs as [|x xs]; [done|].
  simpl in Hxs. apply andb_prop in Hxs as [Hx Hxs]. simpl. rewrite Hx.
  apply re_star_run; [done..|].
  simpl in Hr. by rewrite <- Nat.add_succ_comm in Hr.
Qed.



Lemma match_open p s pos o g r :
  re_items p s pos (pos :: o) g = Some r →
  re_items (ReOpen :: p) s pos o g = Some r.
Proof. done. Qed.

Lemma match_close p s pos start o g r :
  re_items p s pos o (g ++ [(start, pos)]) = Some r →
  re_items (ReClose :: p) s pos (start :: o) g = Some r.
Proof. done. Qed.

Lemma match_lit (l : list N) p s pos o g :
  re_items (((λ c, ReOne (N.eqb c)) <$> l) ++ p) s pos o g
  = if lit_at l s then re_items p (drop (length l) s) (pos + length l)%nat o g
    else None.
Proof.
  revert s pos. induction l as [|a l IH]; intros s pos.
  - simpl. by rewrite drop_0, Nat.add_0_r.
  - destruct s as [|c s]; [done|]. cbn [fmap list_fmap app re_items lit_at].
    destruct (a =? c)%N; [|done]. cbn [andb]. rewrite IH.
    destruct (lit_at l s); [|done]. simpl. f_equal. lia.
Qed.

End Items.












Lemma point_is_no_digit : re_digit 46 = false.
Proof. reflexivity. Qed.


Lemma slice_middle {A} (l pre mid post : list A) (a b : nat) :
  l = pre ++ mid ++ post → a = length pre → b = (a + length mid)%nat →
  slice a b l = mid.
Proof.
  intros -> -> ->. unfold slice. rewrite drop_app_length.
  replace (length pre + length mid - length pre)%nat with (length mid) by lia.
  by rewrite take_app_length.
Qed.


#[local] Arguments re_items : simpl never.












(** * The asset embedder *)

Section EmbedderFacts.
Context `{PyFloat F} (w : World F).


End EmbedderFacts.



Section SecondRun.
Context `{PyFloat F} (w : World F).

Lemma startswith_data (rest : string) : startswith ("data:" +:+ rest) "data:" = true.
Proof. reflexivity. Qed.

(** Without an SVG target the loop body is the Base64 branch. *)
Lemma embed_image_plain (r : nat) (st : embed_state) (id : nat) (e : Element) :
  store st !! id = Some e → svg_target w e = false →
  embed_image w r false st id
  = match file_ref e with
    | None => st
    | Some href =>
        match fs w (resolve_unquoted w href) with
        | None => say (WarnNotFound href) st
        | Some entry =>
            embed_base64 st id e href (resolve_unquoted w href) entry
        end
    end.
Proof.
  intros Hid Hsvg. unfold embed_image, svg_target, file_ref in *. rewrite Hid.
  destruct (get_href e) as [href|]; [|done].
  destruct (String.eqb href "" || startswith href "data:"); [done|].
  destruct (fs w (resolve_unquoted w href)); [|done].
  by rewrite Hsvg.
Qed.

(** The element the Base64 branch writes refers to inline data. *)
Lemma embedded_href (e : Element) (new_href : string) :
  startswith new_href "data:" = true →
  file_ref (set_attr (match attrib e !! XLINK_HREF with
                      | Some v => if String.eqb v "" then "href" else XLINK_HREF
                      | None => "href"
                      end) new_href e) = None.
Proof.
  intros Hdata. unfold file_ref, get_href, set_attr. cbn [attrib].
  assert (String.eqb new_href "" = false) as Hne.
  { destruct (String.eqb_spec new_href "") as [->|]; done. }
  destruct (attrib e !! XLINK_HREF) as [v|] eqn:Ex.
  - destruct (String.eqb v "") eqn:Ev.
    + rewrite lookup_insert_ne, Ex by done. cbn [py_or]. rewrite Ev.
      rewrite lookup_insert_eq. by rewrite Hdata, orb_true_r.
    + rewrite lookup_insert_eq. cbn [py_or]. rewrite Hne.
      by rewrite Hdata, orb_true_r.
  - rewrite lookup_insert_ne, Ex by done. cbn [py_or].
    rewrite lookup_insert_eq. by rewrite Hdata, orb_true_r.
Qed.

(** What one turn of the loop does to the store when the element has
    no SVG target. *)
Lemma embed_image_step (r : nat) (st : embed_state) (id : nat) (e : Element) :
  store st !! id = Some e → svg_target w e = false →
  (embeddable w e = false ∧
   store (embed_image w r false st id) = store st ∧
   images_embedded (embed_image w r false st id) = images_embedded st)
  ∨ (embeddable w e = true ∧
     ∃ e', store (embed_image w r false st id) = <[id := e']> (store st) ∧
           tag e' = tag e ∧ children e' = children e ∧ file_ref e' = None).
Proof.
  intros Hid Hsvg. rewrite (embed_image_plain r st id e Hid Hsvg).
  unfold embeddable. destruct (file_ref e) as [href|]; [|by left].
  destruct (fs w (resolve_unquoted w href)) as [[content|size]|]; [|by left..].
  right. split; [done|]. eexists. split; [reflexivity|]. split; [done|].
  split; [done|]. by apply embedded_href.
Qed.

Lemma no_file_ref (e : Element) :
  file_ref e = None → svg_target w e = false ∧ embeddable w e = false.
Proof. intros E. unfold svg_target, embeddable. by rewrite E. Qed.


Lemma step_facts (r : nat) (st : embed_state) (id : nat) :
  plain_at w (store st) id →
  let st1 := embed_image w r false st id in
  shape (store st1) = shape (store st)
  ∧ (∀ j, plain_at w (store st) j → plain_at w (store st1) j)
  ∧ (∀ j, settled_at w (store st) j → settled_at w (store st1) j)
  ∧ settled_at w (store st1) id.
Proof.
  intros Hp st1. subst st1. destruct (store st !! id) as [e|] eqn:Hid.
  - specialize (Hp e Hid).
    destruct (embed_image_step r st id e Hid Hp)
      as [(Hemb & -> & _)|(Hemb & e' & -> & Htag & Hch & Href)].
    + split; [done|]. split; [done|]. split; [done|].
      intros e0 He0. by simplify_eq.
    + destruct (no_file_ref e' Href) as [Hsvg' Hemb'].
      assert (∀ j e0, <[id := e']> (store st) !! j = Some e0 →
                (j = id ∧ e0 = e') ∨ (j ≠ id ∧ store st !! j = Some e0)) as Hlook.
      { intros j e0. destruct (decide (j = id)) as [->|Hne].
        - rewrite list_lookup_insert_eq by (by eapply lookup_lt_Some).
          intros [= <-]. by left.
        - rewrite list_lookup_insert_ne by done. by right. }
      split; [|split; [|split]].
      * unfold shape. rewrite list_fmap_insert. apply list_insert_id.
        rewrite list_lookup_fmap, Hid. simpl. by rewrite Htag, Hch.
      * intros j Hj e0 [[-> ->]|[_ He0]]%Hlook; [done|by apply Hj].
      * intros j Hj e0 [[-> ->]|[_ He0]]%Hlook; [done|by apply Hj].
      * intros e0 [[_ ->]|[? _]]%Hlook; done.
  - unfold embed_image. rewrite Hid. split; [done|]. split; [done|].
    split; [done|]. intros e0 He0. congruence.
Qed.

Lemma first_run (r : nat) (ids : list nat) :
  ∀ st, (∀ id, id ∈ ids → plain_at w (store st) id) →
  let st' := foldl (embed_image w r false) st ids in
  shape (store st') = shape (store st)
  ∧ (∀ j, plain_at w (store st) j → plain_at w (store st') j)
  ∧ (∀ j, settled_at w (store st) j → settled_at w (store st') j)
  ∧ (∀ id, id ∈ ids → settled_at w (store st') id).
Proof.
  induction ids as [|id ids IH]; intros st Hp; cbn [foldl].
  - split; [done|]. split; [done|]. split; [done|].
    intros id Hid. by apply not_elem_of_nil in Hid.
  - destruct (step_facts r st id) as (Hsh & Hpl & Hse & Hid);
      [apply Hp; by left|].
    destruct (IH (embed_image w r false st id)) as (Hsh' & Hpl' & Hse' & Hids).
    { intros j Hj. apply Hpl, Hp. by right. }
    split; [|split; [|split]].
    + by rewrite Hsh'.
    + intros j Hj. by apply Hpl', Hpl.
    + intros j Hj. by apply Hse', Hse.
    + intros j [->|Hj]%elem_of_cons; [by apply Hse'|by apply Hids].
Qed.




Lemma images_are_plain (h : list Element) (r id : nat) :
  no_svg_image_targets w h → id ∈ images_to_process h r → plain_at w h id.
Proof.
  intros Hno Hid e He. apply (Hno id e He).
  apply list_elem_of_In, filter_In in Hid as [_ Hid]. by rewrite He in Hid.
Qed.
End SecondRun.

(** A store can be checked for SVG targets element by element. *)
Lemma no_svg_image_targets_checked `{PyFloat F} (w : World F) (h : list Element) :
  forallb (λ e, negb (is_image e) || negb (svg_target w e)) h = true →
  no_svg_image_targets w h.
Proof.
  intros Hall id e Hid Himg.
  assert (In e h) as Hin by (apply list_elem_of_In; by eapply list_elem_of_lookup_2).
  pose proof (proj1 (forallb_forall _ _) Hall e Hin) as Hc. cbn beta in Hc.
  rewrite Himg in Hc. by destruct (svg_target w e).
Qed.




(** * The geometry fixer *)

Section FixerFacts.
Context `{PyFloat F} (w : World F).








End FixerFacts.



(** * One decimal place, printed and read back *)

Lemma round_half_even_close (p : Z) (q : positive) :
  2 * Z.abs (round_half_even p q * Z.pos q - p) ≤ Z.pos q.
Proof.
  unfold round_half_even.
  pose proof (Z.div_mod p (Z.pos q) ltac:(done)) as Hdm.
  pose proof (Z.mod_pos_bound p (Z.pos q) ltac:(done)) as Hr.
  set (d := p / Z.pos q) in *. set (r := p mod Z.pos q) in *.
  destruct (Z.compare_spec (2 * r) (Z.pos q)); [destruct (Z.even d)|..]; nia.
Qed.

Lemma round_half_even_nonneg (p : Z) (q : positive) :
  0 ≤ p → 0 ≤ round_half_even p q.
Proof.
  intros Hp. unfold round_half_even.
  pose proof (Z.div_pos p (Z.pos q) Hp ltac:(done)).
  destruct (_ ?= _); [destruct (Z.even _)|..]; lia.
Qed.

(** Decimal digits of a number: what they are and what they denote. *)
Lemma uint_chars_digits (d : uint) :
  forallb is_digit (chars (NilEmpty.string_of_uint d)) = true.
Proof. induction d; simpl; done. Qed.

Lemma digits_value_step (ds : list ascii) (acc : N) :
  fold_left (λ acc c, acc * 10 + (code c - 48))%N ds acc
  = (acc * 10 ^ N.of_nat (length ds) + digits_value ds)%N.
Proof.
  unfold digits_value. revert acc. induction ds as [|c ds IH]; intros acc.
  - simpl. lia.
  - cbn [fold_left length]. rewrite IH, (IH (0 * 10 + _)%N).
    rewrite Nat2N.inj_succ, N.pow_succ_r'. lia.
Qed.

Lemma digits_value_app (a b : list ascii) :
  digits_value (a ++ b)
  = (digits_value a * 10 ^ N.of_nat (length b) + digits_value b)%N.
Proof.
  unfold digits_value at 1. rewrite fold_left_app. apply digits_value_step.
Qed.

Lemma digits_value_acc (d : uint) (acc : positive) :
  fold_left (λ acc c, acc * 10 + (code c - 48))%N
    (chars (NilEmpty.string_of_uint d)) (Npos acc)
  = Npos (Pos.of_uint_acc d acc).
Proof.
  revert acc. unfold chars.
  induction d as [|d IH|d IH|d IH|d IH|d IH|d IH|d IH|d IH|d IH|d IH]; intros acc;
    [done|..];
    cbn [NilEmpty.string_of_uint list_ascii_of_string fold_left Pos.of_uint_acc];
    rewrite <- IH; f_equal; unfold code; cbn [N_of_ascii N_of_digits]; lia.
Qed.

Lemma digits_value_uint (d : uint) :
  digits_value (chars (NilEmpty.string_of_uint d)) = N.of_uint d.
Proof.
  unfold digits_value, N.of_uint, chars.
  induction d as [|d IH|d IH|d IH|d IH|d IH|d IH|d IH|d IH|d IH|d IH];
    [done|..];
    cbn [NilEmpty.string_of_uint list_ascii_of_string fold_left Pos.of_uint];
    [exact IH|..];
    rewrite <- (digits_value_acc d); unfold chars; f_equal.
Qed.

Lemma digits_value_N_digits (k : N) : digits_value (N_digits k) = k.
Proof.
  unfold N_digits. rewrite digits_value_uint. apply DecimalN.Unsigned.of_to.
Qed.

Lemma N_digits_digits (k : N) : forallb is_digit (N_digits k) = true.
Proof. apply uint_chars_digits. Qed.

Lemma N_digits_nonempty (k : N) : N_digits k ≠ [].
Proof.
  unfold N_digits, N.to_uint. destruct k as [|p]; [done|].
  unfold Pos.to_uint. intros E.
  pose proof (DecimalPos.Unsigned.to_uint_nonnil p) as Hnn.
  unfold Pos.to_uint in Hnn. destruct (Decimal.rev (Pos.to_little_uint p)); done.
Qed.

Lemma N_digits_one (k : N) : (k < 10)%N → length (N_digits k) = 1%nat.
Proof.
  intros Hk.
  assert (k = 0 ∨ k = 1 ∨ k = 2 ∨ k = 3 ∨ k = 4 ∨ k = 5 ∨ k = 6 ∨ k = 7
          ∨ k = 8 ∨ k = 9)%N as Hc by lia.
  repeat (destruct Hc as [->|Hc]; [reflexivity|]). by subst.
Qed.

(** [float(format(v, ".1f"))]: the text always reads back, as the tenths
    it shows. *)
Lemma py_float_format_fixed `{PyFloat F} (v : F) (neg : bool) (n : N) :
  to_fixed 1 v = FixNum neg n →
  py_float (F:=F) (format_fixed 1 v) = Some (float_of_decimal neg n (-1)).
Proof.
  intros Hv. unfold format_fixed. rewrite Hv.
  change (10 ^ N.of_nat 1)%N with 10%N.
  assert (pad_zeros 1 (N_digits (n mod 10)) = N_digits (n mod 10)) as ->.
  { unfold pad_zeros. rewrite N_digits_one by (apply N.mod_lt; lia). done. }
  pose proof (py_float_decimal (F:=F) neg (N_digits (n / 10)) (N_digits (n mod 10)) true
                (N_digits_nonempty _) (N_digits_digits _) (N_digits_digits _)
                ltac:(done)) as E.
  unfold decimal_chars in E. rewrite E.
  rewrite digits_value_app, !digits_value_N_digits,
    N_digits_one by (apply N.mod_lt; lia).
  do 2 f_equal. change (10 ^ N.of_nat 1)%N with 10%N.
  rewrite (N.div_mod n 10) at 3 by lia. lia.
Qed.

Lemma exact_fixed_pos (v : Q) :
  (0 <= v)%Q → to_fixed 1 v = FixNum false (Z.to_N (tenths v)).
Proof.
  intros Hv. simpl. unfold Exact.fixed, tenths.
  assert (0 ≤ Qnum v) as Hn.
  { unfold Qle in Hv. simpl in Hv. lia. }
  rewrite Z.abs_eq by done.
  destruct (Z.ltb_spec (Qnum v) 0); [lia|]. done.
Qed.

Lemma exact_round_trip (v : Q) :
  (0 <= v)%Q → py_float (F:=Q) (format_fixed 1 v) = Some (tenths v # 10).
Proof.
  intros Hv. rewrite (py_float_format_fixed v false _ (exact_fixed_pos v Hv)).
  simpl. unfold Exact.of_decimal.
  assert (0 ≤ Qnum v) as Hn.
  { unfold Qle in Hv. simpl in Hv. lia. }
  rewrite Z2N.id; [done|]. apply round_half_even_nonneg. lia.
Qed.

Lemma tenths_close (v : Q) : (v - (1 # 20) <= tenths v # 10 <= v + (1 # 20))%Q.
Proof.
  pose proof (round_half_even_close (Qnum v * 10) (Qden v)) as Hc.
  fold (tenths v) in Hc. destruct v as [a q]. cbn [Qnum Qden] in Hc.
  unfold Qle, Qminus, Qplus, Qopp. cbn [Qnum Qden].
  split; nia.
Qed.

(** * A second run of the fixer *)

Section FixedElement.
Context `{PyFloat F} (w : World F).

(** What is known when the loop body rewrites an element. *)
Lemma fix_element_fix_inv (fuel : nat) (e e' : Element) :
  fix_element w fuel e = Returns (Fix e') →
  ∃ href x y width height iw ih nw nh ox oy,
    endswith (tag e) "image" = true ∧ get_href e = Some href ∧
    float_attr e "x" = Some x ∧ float_attr e "y" = Some y ∧
    float_attr e "width" = Some width ∧ float_attr e "height" = Some height ∧
    fle width f_zero = false ∧ fle height f_zero = false ∧
    get_image_dimensions w fuel href = Returns (Some iw, Some ih) ∧
    calculate_fitted_dimensions iw ih width height
      (if contains "slice" (default "xMidYMid meet" (attrib e !! PAR))
       then "slice" else "meet") = Some (nw, nh, ox, oy) ∧
    e' = del_attr PAR
           (set_attr "height" (format_fixed 1 nh)
              (set_attr "width" (format_fixed 1 nw)
                 (set_attr "y" (format_fixed 1 (fadd y oy))
                    (set_attr "x" (format_fixed 1 (fadd x ox)) e)))).
Proof.
  unfold fix_element. fold PAR. intros Hfix.
  destruct (endswith (tag e) "image") eqn:Htag; [|done]. cbn [negb] in Hfix.
  destruct (get_href e) as [href|]; [|done].
  destruct (float_attr e "x") as [x|]; [|done].
  destruct (float_attr e "y") as [y|]; [|done].
  destruct (float_attr e "width") as [width|]; [|done].
  destruct (float_attr e "height") as [height|]; [|done].
  destruct (fle width f_zero) eqn:Hw; [done|].
  destruct (fle height f_zero) eqn:Hh; [done|]. cbn [orb] in Hfix.
  destruct (contains "none" _); [done|].
  destruct (get_image_dimensions w fuel href) as [[[iw|] [ih|]]| |] eqn:Hdims;
    try done.
  destruct (calculate_fitted_dimensions _ _ _ _ _)
    as [[[[nw nh] ox] oy]|] eqn:Hcalc; [|done].
  destruct (_ && _); [done|]. injection Hfix as <-.
  exists href, x, y, width, height, iw, ih, nw, nh, ox, oy.
  repeat split; done.
Qed.

(** The attributes of a rewritten element. *)
Lemma fixed_lookup (e : Element) (x y width height k : string) :
  k ≠ "x" → k ≠ "y" → k ≠ "width" → k ≠ "height" → k ≠ PAR →
  attrib (del_attr PAR (set_attr "height" height (set_attr "width" width
           (set_attr "y" y (set_attr "x" x e))))) !! k
  = attrib e !! k.
Proof.
  intros. cbn [del_attr set_attr attrib].
  rewrite lookup_delete_ne by done. by rewrite !lookup_insert_ne by done.
Qed.

Lemma fixed_href (e : Element) (x y width height : string) :
  get_href (del_attr PAR (set_attr "height" height (set_attr "width" width
              (set_attr "y" y (set_attr "x" x e)))))
  = get_href e.
Proof. unfold get_href. by rewrite !fixed_lookup. Qed.

Lemma fixed_size (e : Element) (x y width height : string) :
  let e' := del_attr PAR (set_attr "height" height (set_attr "width" width
              (set_attr "y" y (set_attr "x" x e)))) in
  attrib e' !! "width" = Some width ∧ attrib e' !! "height" = Some height ∧
  attrib e' !! "x" = Some x ∧ attrib e' !! "y" = Some y ∧
  attrib e' !! PAR = None.
Proof.
  cbn [del_attr set_attr attrib]. rewrite lookup_delete_eq.
  rewrite !lookup_delete_ne by done.
  repeat split; by repeat (rewrite lookup_insert_eq || rewrite lookup_insert_ne by done).
Qed.
End FixedElement.

(** ** In exact arithmetic *)



(** The fitted rectangle has the ratio of the image. *)
Lemma fitted_ratio (iw ih bw bh : Q) (mode : string) (nw nh ox oy : Q) :
  (0 < iw)%Q → (0 < ih)%Q → (0 < bw)%Q → (0 < bh)%Q →
  calculate_fitted_dimensions iw ih bw bh mode = Some (nw, nh, ox, oy) →
  (0 < nw ∧ 0 < nh ∧ nw * ih == nh * iw)%Q.
Proof.
  intros Hiw Hih Hbw Hbh Hcalc.
  destruct (exact_fit iw ih bw bh mode) as (w' & h' & E & Ewh); try done.
  rewrite E in Hcalc. injection Hcalc as -> -> _ _.
  pose proof (Qdiv_pos _ _ Hiw Hih) as Hr.
  assert (¬ (iw == 0)%Q) as Hiw0 by (intros E0; rewrite E0 in Hiw; by apply Qlt_irrefl in Hiw).
  assert (¬ (ih == 0)%Q) as Hih0 by (intros E0; rewrite E0 in Hih; by apply Qlt_irrefl in Hih).
  destruct (xorb _ _); injection Ewh as -> ->.
  - split; [done|]. split; [by apply Qdiv_pos|]. field. done.
  - split; [|split; [done|]].
    + apply Qmult_lt_0_compat; done.
    + field. done.
Qed.


Section ExactSecondRun.
Context (w : World Q) (fuel : nat).


End ExactSecondRun.

Section SecondFixRun.
Context `{PyFloat F} (w : World F) (fuel : nat).


End SecondFixRun.





(** * More on the dimension prober *)

Lemma byte_val_range (b : byte) : 0 ≤ byte_val b < 256.
Proof.
  unfold byte_val. pose proof (Byte.to_N_bounded b) as Hb.
  change (Z.of_N (Byte.to_N b)) with (Z.of_N (Byte.to_N b)). lia.
Qed.

Lemma int_from_bytes_acc (bs : list byte) (acc : Z) :
  0 ≤ acc →
  0 ≤ fold_left (λ acc b, acc * 256 + byte_val b) bs acc
    < (acc + 1) * 256 ^ Z.of_nat (length bs).
Proof.
  revert acc. induction bs as [|b bs IH]; intros acc Hacc.
  - simpl. lia.
  - cbn [fold_left length]. pose proof (byte_val_range b) as Hb.
    destruct (IH (acc * 256 + byte_val b)) as [Hlo Hhi]; [lia|].
    split; [done|]. rewrite Nat2Z.inj_succ, Z.pow_succ_r by lia.
    eapply Z.lt_le_trans; [exact Hhi|].
    assert (0 < 256 ^ Z.of_nat (length bs)) by (apply Z.pow_pos_nonneg; lia).
    nia.
Qed.

Lemma int_from_bytes_range (bs : list byte) (n : nat) :
  (length bs ≤ n)%nat → 0 ≤ int_from_bytes bs < 256 ^ Z.of_nat n.
Proof.
  intros Hn. destruct (int_from_bytes_acc bs 0 ltac:(done)) as [Hlo Hhi].
  split; [done|]. eapply Z.lt_le_trans; [exact Hhi|].
  rewrite Z.mul_1_l. apply Z.pow_le_mono_r; lia.
Qed.

Lemma f_read_length (f : list byte) (pos n : nat) :
  (length (f_read f pos n).1 ≤ n)%nat.
Proof. unfold f_read. simpl. rewrite length_take. lia. Qed.

Lemma slice_length {A} (a b : nat) (l : list A) : (length (slice a b l) ≤ b - a)%nat.
Proof. unfold slice. rewrite length_take. lia. Qed.

(** The marker loop returns unknown or sides below 65536, unless it is
    still running; it lets no exception out. *)
Lemma jpeg_scan_range `{PyFloat F} (fuel : nat) (f : list byte) :
  ∀ pos,
    jpeg_scan (F:=F) fuel f pos = Running ∨
    jpeg_scan (F:=F) fuel f pos = Returns unknown ∨
    ∃ w h, jpeg_scan (F:=F) fuel f pos = Returns (known w h) ∧
           0 ≤ w < 65536 ∧ 0 ≤ h < 65536.
Proof.
  induction fuel as [|fuel IH]; intros pos; [by left|]. cbn [jpeg_scan].
  destruct (f_read f pos 2) as [marker pos1].
  destruct marker as [|b0 [|b1 [|]]]; try (right; by left).
  destruct (negb _); [right; by left|].
  destruct (_ || _).
  - pose proof (f_read_length f pos1 3) as _.
    destruct (f_read f pos1 3) as [skip pos2].
    pose proof (f_read_length f pos2 2) as Hh.
    destruct (f_read f pos2 2) as [hb pos3].
    pose proof (f_read_length f pos3 2) as Hw.
    destruct (f_read f pos3 2) as [wb pos4]. simpl in Hh, Hw.
    right; right. exists (int_from_bytes wb), (int_from_bytes hb).
    split; [done|].
    split; by apply (int_from_bytes_range _ 2).
  - destruct (_ =? 217); [right; by left|].
    destruct (_ =? 216); [apply IH|].
    destruct (_ && _); [apply IH|].
    destruct (f_read f pos1 2) as [lb pos2].
    destruct (_ <? 0); [right; by left|]. apply IH.
Qed.

(** Whatever the file holds, the signature decoder lets no exception
    out: it is still running, or it returns unknown or a width and a
    height that are not negative and below 2^32. *)
Theorem basic_dimensions_in_range `{PyFloat F} (fuel : nat) (image : fs_entry) :
  get_image_dimensions_basic (F:=F) fuel image = Running ∨
  get_image_dimensions_basic (F:=F) fuel image = Returns unknown ∨
  ∃ w h, get_image_dimensions_basic (F:=F) fuel image = Returns (known w h) ∧
         0 ≤ w < 2 ^ 32 ∧ 0 ≤ h < 2 ^ 32.
Proof.
  destruct image as [f|size]; [|right; by left]. cbn [get_image_dimensions_basic].
  destruct (bytes_eqb (take 8 (take 64 f)) PNG_MAGIC).
  - right; right. eexists _, _. split; [reflexivity|].
    split; apply (int_from_bytes_range _ 4), slice_length.
  - destruct (bytes_eqb _ _); [|right; by left].
    destruct (jpeg_scan_range (F:=F) fuel f 2) as [?|[?|(w & h & ? & ? & ?)]];
      [by left|right; by left|].
    right; right. exists w, h. split; [done|]. lia.
Qed.

(** The pattern for raster data URIs does not match the media type of
    SVG, whatever the payload: an inline SVG is never handed to PIL or
    to the PNG decoder. *)
Theorem svg_data_uri_is_not_raster `{PyFloat F} (w : World F) (payload : string) :
  get_image_dimensions_from_base64 w ("data:image/svg+xml;base64," +:+ payload)
  = unknown.
Proof. reflexivity. Qed.

(** ** When the marker loop returns *)

Lemma f_read_short (f : list byte) (pos n : nat) :
  (length f ≤ pos)%nat → f_read f pos n = ([], pos).
Proof.
  intros Hpos. unfold f_read. rewrite drop_ge by done. rewrite take_nil.
  simpl. f_equal. lia.
Qed.

Lemma f_read_marker (f : list byte) (pos : nat) (b0 b1 : byte) (pos' : nat) :
  f_read f pos 2 = ([b0; b1], pos') →
  pos' = (pos + 2)%nat ∧ (pos + 2 ≤ length f)%nat ∧
  ((pos + 2)%nat = length f → rev f = b1 :: b0 :: rev (take pos f)).
Proof.
  unfold f_read. intros [= E <-]. split; [by rewrite E|].
  assert (length (take 2 (drop pos f)) = 2%nat) as Hlen by (by rewrite E).
  rewrite length_take, length_drop in Hlen. split; [lia|].
  intros Hend. rewrite <- (take_drop pos f) at 1.
  rewrite take_ge in E by (rewrite length_drop; lia).
  by rewrite E, rev_app_distr.
Qed.

Lemma jpeg_scan_returns `{PyFloat F} (f : list byte) :
  open_marker_at_end f = false →
  ∀ fuel pos, (length f ≤ fuel + pos)%nat →
    ∃ d, jpeg_scan (F:=F) (S fuel) f pos = Returns d.
Proof.
  intros Hend. induction fuel as [|fuel IH]; intros pos Hfuel.
  - cbn [jpeg_scan]. rewrite (f_read_short f pos 2) by lia. by eexists.
  - remember (S fuel) as fuel' eqn:Efuel. cbn [jpeg_scan]. subst fuel'.
    destruct (f_read f pos 2) as [marker pos1] eqn:Hm.
    destruct marker as [|b0 [|b1 [|]]]; try by eexists.
    apply f_read_marker in Hm as (-> & Hlen & Hrev).
    destruct (negb (byte_val b0 =? 255)) eqn:Hff; [by eexists|].
    apply negb_false_iff in Hff.
    destruct ((byte_val b1 =? 192) || (byte_val b1 =? 194)) eqn:Hsof.
    { destruct (f_read f (pos + 2) 3) as [skip pos2].
      destruct (f_read f pos2 2) as [hb pos3].
      destruct (f_read f pos3 2) as [wb pos4]. by eexists. }
    destruct (byte_val b1 =? 217) eqn:Heoi; [by eexists|].
    destruct (byte_val b1 =? 216) eqn:Hsoi; [apply IH; lia|].
    destruct ((208 <=? byte_val b1) && (byte_val b1 <=? 215)) eqn:Hrst;
      [apply IH; lia|].
    destruct (f_read f (pos + 2) 2) as [lb pos2] eqn:Hlb.
    destruct (_ <? 0); [by eexists|]. apply IH.
    unfold f_read in Hlb. injection Hlb as <- <-.
    pose proof (int_from_bytes_range (take 2 (drop (pos + 2) f)) 2
                  ltac:(rewrite length_take; lia)) as [Hlo _].
    destruct (decide (pos + 2 = length f)%nat) as [Hlast|Hmore].
    + exfalso. unfold open_marker_at_end in Hend. rewrite (Hrev Hlast) in Hend.
      unfold is_sof, no_length in Hend.
      by rewrite Hff, Hsof, Heoi, Hsoi, Hrst in Hend.
    + assert (1 ≤ length (take 2 (drop (pos + 2) f)))%nat.
      { rewrite length_take, length_drop. lia. }
      lia.
Qed.

(** Unless the file ends with a marker that wants a length, the signature
    decoder returns once the fuel covers the length of the file. *)
Theorem basic_returns_on_closed_files `{PyFloat F} (fuel : nat) (f : list byte) :
  open_marker_at_end f = false → (length f ≤ fuel + 2)%nat →
  ∃ d, get_image_dimensions_basic (F:=F) (S fuel) (FsFile f) = Returns d.
Proof.
  intros Hend Hfuel. cbn [get_image_dimensions_basic].
  destruct (bytes_eqb _ PNG_MAGIC); [by eexists|].
  destruct (bytes_eqb _ JPEG_MAGIC); [|by eexists].
  by apply jpeg_scan_returns.
Qed.

Lemma basic_returns_on_closed_files_witness :
  ∃ d, get_image_dimensions_basic (F:=float) 21
         (FsFile (JPEG_MAGIC ++ segments_bytes sample_segments ++ [xff; xd9]))
       = Returns d.
Proof.
  apply (basic_returns_on_closed_files (F:=float) 20
           (JPEG_MAGIC ++ segments_bytes sample_segments ++ [xff; xd9]));
    [reflexivity|vm_compute; lia].
Defined.


(** * Base64: what the embedder writes, the prober reads *)

Lemma all_bytes_complete (b : byte) : In b all_bytes.
Proof.
  assert (existsb (Byte.eqb b) all_bytes = true) as Hb.
  { destruct b; vm_compute; reflexivity. }
  apply existsb_exists in Hb as (b' & Hin & Heq).
  apply Byte.byte_dec_bl in Heq. by subst.
Qed.

Lemma for_all_bytes (P : byte → bool) :
  forallb P all_bytes = true → ∀ b, P b = true.
Proof. intros Hall b. eapply forallb_forall; [exact Hall|apply all_bytes_complete]. Qed.

Lemma for_all_byte_pairs (P : byte → byte → bool) :
  forallb (λ a, forallb (P a) all_bytes) all_bytes = true → ∀ a b, P a b = true.
Proof.
  intros Hall a b. apply for_all_bytes.
  apply (for_all_bytes (λ a, forallb (P a) all_bytes) Hall a).
Qed.

Lemma b64_char_code (v : N) :
  (v < 64)%N →
  (code (b64_char v) =? 61)%N = false ∧
  b64_value (code (b64_char v)) = Some v ∧
  (code (b64_char v) <? 128)%N = true.
Proof.
  intros Hv. unfold b64_char, code.
  destruct (N.ltb_spec v 26); [|destruct (N.ltb_spec v 52); [|destruct (N.ltb_spec v 62);
    [|destruct (N.eqb_spec v 62)]]];
    rewrite N_ascii_embedding by lia; unfold b64_value;
    (split; [apply N.eqb_neq; lia|split; [|apply N.ltb_lt; lia]]);
    decide_codes; f_equal; lia.
Qed.

(** The characters of the alphabet: no comma, no line feed. *)
Lemma b64_char_plain (v : N) :
  (v < 64)%N →
  (code (b64_char v) <? 128)%N = true ∧ re_dot (code (b64_char v)) = true ∧
  Ascii.eqb (b64_char v) "," = false.
Proof.
  intros Hv.
  assert (code (b64_char v) ≠ 44 ∧ code (b64_char v) ≠ 10 ∧ code (b64_char v) < 128)%N
    as (H44 & H10 & H128).
  { unfold b64_char, code.
    destruct (N.ltb_spec v 26); [|destruct (N.ltb_spec v 52); [|destruct (N.ltb_spec v 62);
      [|destruct (N.eqb_spec v 62)]]];
      rewrite N_ascii_embedding by lia; lia. }
  split; [by apply N.ltb_lt|]. split.
  - unfold re_dot. by apply negb_true_iff, N.eqb_neq.
  - destruct (Ascii.eqb_spec (b64_char v) ",") as [E|]; [|done].
    rewrite E in H44. done.
Qed.

Lemma a2b_step (v : N) (s : list N) (quad_pos : nat) (leftchar : N) (pads : nat)
    (out : list byte) :
  (v < 64)%N →
  a2b_base64 (code (b64_char v) :: s) quad_pos leftchar pads out
  = match quad_pos with
    | 0%nat => a2b_base64 s 1%nat v 0%nat out
    | 1%nat =>
        a2b_base64 s 2%nat (N.land v 15) 0%nat
          (to_byte (N.lor (N.shiftl leftchar 2) (N.shiftr v 4)) :: out)
    | 2%nat =>
        a2b_base64 s 3%nat (N.land v 3) 0%nat
          (to_byte (N.lor (N.shiftl leftchar 4) (N.shiftr v 2)) :: out)
    | _ =>
        a2b_base64 s 0%nat 0%N 0%nat
          (to_byte (N.lor (N.shiftl leftchar 6) v) :: out)
    end.
Proof.
  intros Hv. destruct (b64_char_code v Hv) as (E1 & E2 & _).
  cbn [a2b_base64]. by rewrite E1, E2.
Qed.

(** The bit operations of encoder and decoder on two neighbouring bytes,
    checked on all of them. *)
Lemma sextets (p q : byte) :
  let x := Byte.to_N p in
  let y := Byte.to_N q in
  let v2 := N.lor (N.shiftl (N.land x 3) 4) (N.shiftr y 4) in
  let v3 := N.lor (N.shiftl (N.land x 15) 2) (N.shiftr y 6) in
  let t2 := N.shiftl (N.land x 3) 4 in
  let t3 := N.shiftl (N.land x 15) 2 in
  ((N.shiftr x 2 <? 64) && (v2 <? 64) && (v3 <? 64) && (N.land y 63 <? 64)
   && (t2 <? 64) && (t3 <? 64)
   && Byte.eqb (to_byte (N.lor (N.shiftl (N.shiftr x 2) 2) (N.shiftr v2 4))) p
   && (N.land v2 15 =? N.shiftr y 4)
   && Byte.eqb (to_byte (N.lor (N.shiftl (N.shiftr x 4) 4) (N.shiftr v3 2))) p
   && (N.land v3 3 =? N.shiftr y 6)
   && Byte.eqb (to_byte (N.lor (N.shiftl (N.shiftr y 6) 6) (N.land y 63))) q
   && Byte.eqb (to_byte (N.lor (N.shiftl (N.shiftr x 2) 2) (N.shiftr t2 4))) p
   && (N.land t2 15 =? 0)
   && Byte.eqb (to_byte (N.lor (N.shiftl (N.shiftr x 4) 4) (N.shiftr t3 2))) p)%N
  = true.
Proof.
  revert p q. apply for_all_byte_pairs. vm_compute. reflexivity.
Qed.

Lemma list_ind_3 {A} (P : list A → Prop) :
  P [] → (∀ a, P [a]) → (∀ a b, P [a; b]) →
  (∀ a b c l, P l → P (a :: b :: c :: l)) →
  ∀ l, P l.
Proof.
  intros H0 H1 H2 H3. fix IH 1. intros [|a [|b [|c l]]]; [done..|].
  apply H3, IH.
Qed.

Ltac sextet_facts p q :=
  let H := fresh "H" in
  pose proof (sextets p q) as H; cbv zeta in H;
  repeat (apply andb_prop in H as [H ?]);
  repeat match goal with
         | E : (_ <? _)%N = true |- _ => apply N.ltb_lt in E
         | E : (_ =? _)%N = true |- _ => apply N.eqb_eq in E
         | E : Byte.eqb _ _ = true |- _ => apply Byte.byte_dec_bl in E
         end.

Lemma a2b_b64encode (bs : list byte) :
  ∀ out, a2b_base64 (code <$> b64encode bs) 0 0 0 out = Some (rev out ++ bs).
Proof.
  induction bs as [|a|a b|a b c bs IH] using list_ind_3; intros out.
  - simpl. by rewrite app_nil_r.
  - sextet_facts a a. cbn [b64encode fmap list_fmap].
    rewrite !a2b_step by done. cbn [a2b_base64].
    change (code "=" =? 61)%N with true. cbn. do 2 f_equal. congruence.
  - sextet_facts a b. sextet_facts b b. cbn [b64encode fmap list_fmap].
    rewrite !a2b_step by done. cbn [a2b_base64].
    change (code "=" =? 61)%N with true. cbn.
    rewrite <- (assoc_L (++)). do 2 f_equal. simpl. f_equal; [congruence|].
    f_equal. congruence.
  - sextet_facts a b. sextet_facts b c. cbn [b64encode fmap list_fmap].
    rewrite !a2b_step by done. rewrite IH. cbn [rev].
    rewrite <- !(assoc_L (++)). do 2 f_equal. simpl.
    f_equal; [congruence|]. f_equal; [congruence|]. f_equal. congruence.
Qed.

(** What [b64encode] writes is plain ASCII without commas or line feeds,
    and empty only for no bytes. *)
Lemma b64encode_plain (bs : list byte) :
  Forall (λ c, (code c <? 128)%N = true ∧ re_dot (code c) = true
               ∧ Ascii.eqb c "," = false) (b64encode bs).
Proof.
  induction bs as [|a|a b|a b c bs IH] using list_ind_3.
  - constructor.
  - sextet_facts a a. cbn [b64encode].
    repeat (constructor; [first [by apply b64_char_plain|done]|]). constructor.
  - sextet_facts a b. sextet_facts b b. cbn [b64encode].
    repeat (constructor; [first [by apply b64_char_plain|done]|]). constructor.
  - sextet_facts a b. sextet_facts b c. cbn [b64encode].
    repeat (constructor; [by apply b64_char_plain|]). exact IH.
Qed.

Lemma b64encode_nonempty (bs : list byte) : bs ≠ [] → b64encode bs ≠ [].
Proof. by destruct bs as [|a [|b [|c bs]]]. Qed.

Lemma codes_text_of (l : list ascii) : codes (text_of l) = code <$> l.
Proof. unfold codes. by rewrite chars_text_of. Qed.

Lemma b64_round_trip (bs : list byte) :
  b64decode (codes (text_of (b64encode bs))) = Some bs.
Proof.
  unfold b64decode. rewrite codes_text_of.
  assert (forallb (λ c, c <? 128)%N (code <$> b64encode bs) = true) as ->.
  { apply forallb_forall. intros c (c' & <- & Hc')%in_map_iff.
    pose proof (b64encode_plain bs) as Hall. rewrite Forall_forall in Hall.
    by apply Hall, list_elem_of_In. }
  by rewrite a2b_b64encode.
Qed.

Lemma chars_app (a b : string) : chars (a +:+ b) = chars a ++ chars b.
Proof. induction a as [|c a IH]; [done|]. simpl. f_equal. apply IH. Qed.

Lemma codes_app (a b : string) : codes (a +:+ b) = codes a ++ codes b.
Proof. unfold codes. by rewrite chars_app, fmap_app. Qed.

Lemma split_on_plain (sep : ascii) (s : list ascii) :
  Forall (λ c, Ascii.eqb c sep = false) s → split_on sep s = [s].
Proof.
  induction 1 as [|c s Hc _ IH]; [done|]. cbn [split_on]. by rewrite IH, Hc.
Qed.

Lemma lit_at_app (l r : list N) : lit_at l (l ++ r) = true.
Proof. induction l as [|a l IH]; [done|]. simpl. by rewrite N.eqb_refl. Qed.

(** The pattern for raster data URIs on a URI with a media subtype of
    word characters and a payload without line feeds: the two groups. *)
Lemma data_uri_match (word payload : list N) :
  word ≠ [] → forallb re_word word = true →
  payload ≠ [] → forallb re_dot payload = true →
  re_match DATA_URI_RE (codes "data:image/" ++ word ++ codes ";base64," ++ payload)
  = Some [(11, 11 + length word)%nat;
          (19 + length word, 19 + length word + length payload)%nat].
Proof.
  intros Hw Hword Hp Hpay. unfold re_match, DATA_URI_RE, re_lit.
  rewrite match_lit, lit_at_app, drop_app_length. cbn [app].
  rewrite (match_open _ _ _ _ _
             ([(11, 11 + length word)%nat;
               (19 + length word, 19 + length word + length payload)%nat],
              (19 + length word + length payload)%nat)); [done|].
  apply match_plus; [done|done|done|].
  apply match_close. rewrite match_lit, lit_at_app, drop_app_length.
  apply match_open. rewrite <- (app_nil_r payload).
  apply match_plus; [done|done|done|].
  cbn [re_items app length codes fmap list_fmap chars list_ascii_of_string].
  rewrite app_nil_r. change (0 + 11)%nat with 11%nat.
  by replace (11 + length word + 8)%nat with (19 + length word)%nat by lia.
Qed.

(** The reference is written where [get_href] reads it. *)
Lemma href_written (e : Element) (new_href : string) :
  new_href ≠ "" →
  get_href (set_attr (match attrib e !! XLINK_HREF with
                      | Some v => if String.eqb v "" then "href" else XLINK_HREF
                      | None => "href"
                      end) new_href e) = Some new_href.
Proof.
  intros Hne%String.eqb_neq. unfold get_href, set_attr. cbn [attrib].
  destruct (attrib e !! XLINK_HREF) as [v|] eqn:Ex.
  - destruct (String.eqb v "") eqn:Ev.
    + rewrite lookup_insert_ne, Ex by done. cbn [py_or]. rewrite Ev.
      by rewrite lookup_insert_eq.
    + rewrite lookup_insert_eq. cbn [py_or]. by rewrite Hne.
  - rewrite lookup_insert_ne, Ex by done. cbn [py_or].
    by rewrite lookup_insert_eq.
Qed.

Lemma png_dimensions_head `{PyFloat F} (content : list byte) :
  png_dimensions (F:=F) (take 64 content) = png_dimensions content.
Proof.
  unfold png_dimensions, slice.
  change 64%nat with (16 + 48)%nat at 1. rewrite <- take_drop_commute, take_take.
  change 64%nat with (20 + 44)%nat. rewrite <- take_drop_commute, take_take.
  done.
Qed.

Section EmbedThenProbe.
Context `{PyFloat F} (w : World F) (fuel : nat).

(** A data URI as the embedder writes it, read by the prober. *)
Lemma probe_data_uri (word : string) (content : list byte) :
  word ∈ ["png"; "jpeg"; "gif"; "webp"] →
  content ≠ [] → decode_utf8 content = None →
  get_image_dimensions w fuel
    ("data:" +:+ ("image/" +:+ word) +:+ ";base64," +:+ text_of (b64encode content))
  = Returns (if HAS_PIL w
             then match pil_size w content with
                  | Some (iw, ih) => known iw ih
                  | None => unknown
                  end
             else if bytes_eqb (take 8 content) PNG_MAGIC
                  then png_dimensions content else unknown).
Proof.
  intros Hword Hne Hbin.
  set (payload := text_of (b64encode content)).
  set (href := "data:" +:+ ("image/" +:+ word) +:+ ";base64," +:+ payload).
  pose proof (b64encode_plain content) as Hplain.
  assert (split href "," !! 1%nat = Some payload) as Hsplit.
  { unfold split, href.
    assert (split_on "," (chars payload) = [chars payload]) as Hp.
    { apply split_on_plain. unfold payload. rewrite chars_text_of.
      eapply Forall_impl; [exact Hplain|]. by intros c (_ & _ & ?). }
    rewrite !chars_app.
    repeat (apply elem_of_cons in Hword as [->|Hword]);
      [..|by apply not_elem_of_nil in Hword];
      cbn [chars list_ascii_of_string app split_on]; rewrite Hp;
      cbn; unfold payload; by rewrite string_of_list_ascii_of_string. }
  assert (inline_svg_view_box (F:=F) href = None) as Hsvg.
  { unfold inline_svg_view_box. rewrite Hsplit. cbn [mbind option_bind].
    unfold payload. rewrite b64_round_trip. cbn [mbind option_bind].
    by rewrite Hbin. }
  assert (get_image_dimensions_from_base64 w href
          = if HAS_PIL w
            then match pil_size w content with
                 | Some (iw, ih) => known iw ih
                 | None => unknown
                 end
            else if bytes_eqb (take 8 content) PNG_MAGIC
                 then png_dimensions content else unknown) as Hraster.
  { unfold get_image_dimensions_from_base64.
    assert (codes href = codes "data:image/" ++ codes word ++ codes ";base64,"
                         ++ codes payload) as Ehref.
    { unfold href. rewrite !codes_app. by rewrite <- !(assoc_L (++)). }
    rewrite Ehref.
    assert (codes payload ≠ [] ∧ forallb re_dot (codes payload) = true) as [Hp1 Hp2].
    { unfold payload. rewrite codes_text_of. split.
      - intros E%fmap_nil_inv. by apply b64encode_nonempty in E.
      - apply forallb_forall. intros c (c' & <- & Hc')%in_map_iff.
        rewrite Forall_forall in Hplain.
        by destruct (Hplain c' (proj2 (list_elem_of_In _ _) Hc')) as (_ & ? & _). }
    assert (codes word ≠ [] ∧ forallb re_word (codes word) = true) as [Hw1 Hw2].
    { repeat (apply elem_of_cons in Hword as [->|Hword]);
        [..|by apply not_elem_of_nil in Hword]; done. }
    rewrite data_uri_match by done.
    unfold group. cbn [lookup list_lookup Nat.sub].
    erewrite (slice_middle _ (codes "data:image/" ++ codes word ++ codes ";base64,")
                (codes payload) []);
      [| by rewrite app_nil_r, <- !(assoc_L (++))
       | rewrite ?length_app; simpl; lia
       | rewrite ?length_app; simpl; lia].
    unfold payload. by rewrite b64_round_trip. }
  unfold get_image_dimensions.
  assert (startswith href "data:" = true) as -> by reflexivity.
  destruct (contains "image/svg+xml" href); [rewrite Hsvg|]; by rewrite Hraster.
Qed.
End EmbedThenProbe.

(** An image that the embedder has written into the document is measured
    by the prober as its file is: through PIL where there is PIL, and as
    a PNG by its header where there is none. *)
Theorem embedded_image_probes_as_file `{PyFloat F} (w : World F) (fuel : nat)
    (st : embed_state) (id : nat) (e : Element) (href path : string)
    (content : list byte) :
  store st !! id = Some e →
  get_mime_type (path_name path) ∈ ["image/png"; "image/jpeg"; "image/gif"; "image/webp"] →
  content ≠ [] → decode_utf8 content = None →
  HAS_PIL w = true ∨ bytes_eqb (take 8 content) PNG_MAGIC = true →
  ∃ e' new_href,
    store (embed_base64 st id e href path (FsFile content)) !! id = Some e' ∧
    get_href e' = Some new_href ∧
    get_image_dimensions w fuel new_href
    = if HAS_PIL w then Returns (get_image_dimensions_pil w (FsFile content))
      else get_image_dimensions_basic fuel (FsFile content).
Proof.
  intros Hid Hmime Hne Hbin Hkind. cbn [embed_base64 store].
  eexists _, _. split; [|split].
  - apply list_lookup_insert_eq. by eapply lookup_lt_Some.
  - apply href_written. by destruct (get_mime_type (path_name path)).
  - assert (∃ word, word ∈ ["png"; "jpeg"; "gif"; "webp"] ∧
                    get_mime_type (path_name path) = "image/" +:+ word)
      as (word & Hword & ->).
    { repeat (apply elem_of_cons in Hmime as [->|Hmime]);
        [..|by apply not_elem_of_nil in Hmime]; eexists; (split; [|reflexivity]);
        set_solver. }
    rewrite (probe_data_uri w fuel word content Hword Hne Hbin).
    cbn [get_image_dimensions_pil get_image_dimensions_basic].
    destruct (HAS_PIL w); [done|]. destruct Hkind as [?|Hpng]; [done|].
    rewrite take_take. change (8 `min` 64)%nat with 8%nat.
    by rewrite Hpng, png_dimensions_head.
Qed.

Lemma embedded_image_probes_as_file_witness :
  ∃ e' new_href,
    store (embed_base64 {| store := [image_element [("href", "tall.png")]];
                           images_embedded := 0;
                           modified := false; printed := [] |} 0
             (image_element [("href", "tall.png")]) "tall.png" "tall.png"
             (FsFile tall_png)) !! 0%nat = Some e' ∧
    get_href e' = Some new_href ∧
    get_image_dimensions (F:=float) image_files 1 new_href
    = if HAS_PIL (image_files (F:=float))
      then Returns (get_image_dimensions_pil image_files (FsFile tall_png))
      else get_image_dimensions_basic 1 (FsFile tall_png).
Proof.
  apply (embedded_image_probes_as_file (F:=float) image_files 1 _ 0
           (image_element [("href", "tall.png")]) "tall.png" "tall.png" tall_png).
  - reflexivity.
  - left.
  - done.
  - vm_compute. reflexivity.
  - right. vm_compute. reflexivity.
Defined.

(** * More on the asset embedder *)

Lemma split_on_nonempty (sep : ascii) (s : list ascii) : split_on sep s ≠ [].
Proof.
  destruct s as [|c s]; [done|]. cbn [split_on].
  destruct (split_on sep s); [done|]. by destruct (Ascii.eqb c sep).
Qed.

Lemma split_on_last (sep : ascii) (a b : list ascii) :
  Forall (λ c, Ascii.eqb c sep = false) b →
  split_on sep (a ++ sep :: b) = split_on sep a ++ [b].
Proof.
  intros Hb. induction a as [|c a IH].
  - cbn [app split_on]. by rewrite (split_on_plain sep b Hb), Ascii.eqb_refl.
  - cbn [app split_on]. rewrite IH.
    pose proof (split_on_nonempty sep a) as Hne.
    destruct (split_on sep a) as [|piece pieces]; [done|]. cbn [app].
    by destruct (Ascii.eqb c sep).
Qed.

Lemma lower_char_dot (c : ascii) :
  Ascii.eqb (lower_char c) "." = Ascii.eqb c ".".
Proof.
  unfold lower_char. cbn zeta.
  destruct (Ascii.eqb_spec c ".") as [->|Hne]; [done|].
  destruct ((65 <=? code c) && (code c <=? 90))%N eqn:E; [|by apply Ascii.eqb_neq].
  apply andb_prop in E as [E1%N.leb_le E2%N.leb_le].
  apply Ascii.eqb_neq. intros Heq. apply (f_equal code) in Heq.
  unfold code in Heq at 1. rewrite N_ascii_embedding in Heq by (unfold code in *; lia).
  change (code ".") with 46%N in Heq. lia.
Qed.

(** The media type is chosen by what follows the last dot of the name,
    without regard to case; a name without a dot is its own extension. *)
Theorem mime_type_by_extension (stem ext : list ascii) :
  Forall (λ c, Ascii.eqb c "." = false) ext →
  get_mime_type (stem ++ "."%char :: ext)
  = default "application/octet-stream" (mime_map !! text_of (lower_char <$> ext)) ∧
  get_mime_type ext
  = default "application/octet-stream" (mime_map !! text_of (lower_char <$> ext)).
Proof.
  intros Hext.
  assert (Forall (λ c, Ascii.eqb c "." = false) (lower_char <$> ext)) as Hlow.
  { apply Forall_fmap. eapply Forall_impl; [exact Hext|].
    intros c Hc. simpl. by rewrite lower_char_dot. }
  unfold get_mime_type. split.
  - rewrite fmap_app, fmap_cons. change (lower_char ".") with "."%char.
    by rewrite split_on_last, last_snoc.
  - by rewrite split_on_plain.
Qed.

Lemma mime_type_by_extension_witness :
  get_mime_type (chars "Photo.old" ++ "."%char :: chars "JPG") = "image/jpeg" ∧
  get_mime_type (chars "JPG") = "image/jpeg".
Proof.
  apply (mime_type_by_extension (chars "Photo.old") (chars "JPG")).
  repeat constructor.
Defined.

Section Report.
Context `{PyFloat F} (w : World F).

Lemma count_snoc (msgs : list message) (m : message) :
  length (List.filter counted (msgs ++ [m]))
  = (length (List.filter counted msgs) + if counted m then 1 else 0)%nat.
Proof.
  rewrite List.filter_app, length_app. simpl. by destruct (counted m).
Qed.

Lemma embed_image_counts (r : nat) (dry_run : bool) (st : embed_state) (id : nat) :
  images_embedded st = length (List.filter counted (printed st)) →
  images_embedded (embed_image w r dry_run st id)
  = length (List.filter counted (printed (embed_image w r dry_run st id))).
Proof.
  intros Hst. unfold embed_image.
  destruct (store st !! id) as [e|]; [|done].
  destruct (get_href e) as [href|]; [|done].
  destruct (_ || _); [done|].
  destruct (fs w (resolve_unquoted w href)) as [entry|].
  2: { cbn [say images_embedded printed]. rewrite count_snoc. simpl. lia. }
  destruct dry_run.
  { cbn [images_embedded printed]. rewrite count_snoc. simpl. lia. }
  assert (∀ st0, images_embedded st0 = length (List.filter counted (printed st0)) →
            images_embedded (embed_base64 st0 id e href (resolve_unquoted w href) entry)
            = length (List.filter counted
                        (printed (embed_base64 st0 id e href
                                    (resolve_unquoted w href) entry)))) as Hb64.
  { intros st0 H0. destruct entry; cbn [embed_base64 images_embedded printed];
      rewrite count_snoc; simpl; lia. }
  destruct (String.eqb _ ".svg"); [|by apply Hb64].
  destruct (inline_svg w r st id e href (resolve_unquoted w href)) as [st'|] eqn:Hin.
  - unfold inline_svg in Hin.
    destruct (ET_parse w _) as [[stag sattr schildren]|]; [|done].
    cbn [mbind option_bind] in Hin.
    destruct (float_attr e "x"); [|done]. cbn [mbind option_bind] in Hin.
    destruct (float_attr e "y"); [|done]. cbn [mbind option_bind] in Hin.
    destruct (float_attr e "width"); [|done]. cbn [mbind option_bind] in Hin.
    destruct (float_attr e "height"); [|done]. cbn [mbind option_bind] in Hin.
    destruct (get_svg_dimensions w _) as [sw sh].
    destruct (if truthy sw && truthy sh then _ else _) as [[sx sy]|]; [|done].
    cbn [mbind option_bind] in Hin.
    destruct (parent_of _ _ _); [|by injection Hin as <-].
    destruct (alloc_trees _ _) as [h1 ids].
    injection Hin as <-. cbn [images_embedded printed].
    rewrite count_snoc. simpl. lia.
  - apply Hb64. cbn [say images_embedded printed]. rewrite count_snoc. simpl. lia.
Qed.

Lemma embed_loop_counts (r : nat) (dry_run : bool) (ids : list nat) :
  ∀ st, images_embedded st = length (List.filter counted (printed st)) →
  images_embedded (foldl (embed_image w r dry_run) st ids)
  = length (List.filter counted (printed (foldl (embed_image w r dry_run) st ids))).
Proof.
  induction ids as [|id ids IH]; intros st Hst; [done|]. cbn [foldl].
  by apply IH, embed_image_counts.
Qed.
End Report.

(** The number the embedder returns is the number of [OK] and [PREVIEW]
    lines it has printed. *)
Theorem embedded_count_is_reported `{PyFloat F} (w : World F) (parsed : option Document)
    (dry_run : bool) :
  (embed_images_in_svg w parsed dry_run).1.1
  = length (List.filter counted (embed_images_in_svg w parsed dry_run).2).
Proof.
  destruct parsed as [doc|]; [|done]. cbn [embed_images_in_svg fst snd].
  by apply embed_loop_counts.
Qed.

Section DryRun.
Context `{PyFloat F} (w : World F).

Lemma embed_image_dry (r : nat) (st : embed_state) (id : nat) :
  forallb dry_line (printed st) = true →
  store (embed_image w r true st id) = store st ∧
  forallb dry_line (printed (embed_image w r true st id)) = true.
Proof.
  intros Hst. unfold embed_image.
  destruct (store st !! id) as [e|]; [|done].
  destruct (get_href e) as [href|]; [|done].
  destruct (_ || _); [done|].
  destruct (fs w (resolve_unquoted w href)) as [entry|];
    cbn [say store printed]; by rewrite forallb_app, Hst.
Qed.

Lemma embed_loop_dry (r : nat) (ids : list nat) :
  ∀ st, forallb dry_line (printed st) = true →
  store (foldl (embed_image w r true) st ids) = store st ∧
  forallb dry_line (printed (foldl (embed_image w r true) st ids)) = true.
Proof.
  induction ids as [|id ids IH]; intros st Hst; [done|]. cbn [foldl].
  destruct (embed_image_dry r st id Hst) as [Hstore Hlines].
  destruct (IH _ Hlines) as [Hstore' Hlines']. split; [congruence|done].
Qed.
End DryRun.

(** A dry run leaves the document as it is and prints only previews and
    warnings about missing files. *)
Theorem embedder_dry_run `{PyFloat F} (w : World F) (doc : Document) :
  (embed_images_in_svg w (Some doc) true).1.2 = Some doc ∧
  forallb dry_line (embed_images_in_svg w (Some doc) true).2 = true.
Proof.
  cbn [embed_images_in_svg fst snd].
  destruct (embed_loop_dry w (root doc) (images_to_process (heap doc) (root doc))
              {| store := heap doc; images_embedded := 0; modified := false;
                 printed := [] |}) as [Hstore Hlines]; [done|].
  cbn [store] in Hstore. rewrite Hstore. split; [by destruct doc|done].
Qed.

(** ** Elements stay where they are *)








Section Stays.
Context `{PyFloat F} (w : World F).




End Stays.


(** ** The size shown in a preview *)

Lemma exact_float_of_nat (n : nat) :
  float_of_int (F:=Q) (Z.of_nat n) = inject_Z (Z.of_nat n).
Proof.
  unfold float_of_int. simpl. unfold Exact.of_decimal.
  destruct (Z.ltb_spec (Z.of_nat n) 0); [lia|].
  rewrite N2Z.inj_abs_N, Z.abs_eq by lia. by rewrite Z.mul_1_r.
Qed.

(** In exact arithmetic, from 1024 bytes on the text is a number with one
    decimal, within a twentieth of the size in the unit shown, followed
    by that unit. *)
Theorem file_size_text_is_close (size_bytes : nat) :
  (1024 ≤ size_bytes)%nat →
  ∃ s q,
    get_file_size_str (F:=Q) size_bytes
    = Some (s +:+ (if Z.of_nat size_bytes <? 1024 * 1024 then " KB" else " MB")) ∧
    py_float (F:=Q) s = Some q ∧
    (q - (1 # 20)
     <= inject_Z (Z.of_nat size_bytes)
        / (if Z.of_nat size_bytes <? 1024 * 1024 then 1024 else 1048576)
     <= q + (1 # 20))%Q.
Proof.
  intros Hsize. unfold get_file_size_str. cbn zeta.
  destruct (Z.ltb_spec (Z.of_nat size_bytes) 1024); [lia|].
  rewrite exact_float_of_nat.
  assert (∀ d : Q, (0 < d)%Q →
            ∃ s q, (v ← fdiv (inject_Z (Z.of_nat size_bytes)) d;
                    Some (format_fixed 1 v)) = Some s ∧
                   py_float (F:=Q) s = Some q ∧
                   (q - (1 # 20) <= inject_Z (Z.of_nat size_bytes) / d
                    <= q + (1 # 20))%Q) as Hunit.
  { intros d Hd. rewrite exact_div by done. cbn [mbind option_bind].
    set (v := (inject_Z (Z.of_nat size_bytes) / d)%Q).
    assert (0 <= v)%Q as Hv.
    { apply Qlt_le_weak, Qdiv_pos; [|done].
      change 0%Q with (inject_Z 0). rewrite <- Zlt_Qlt. lia. }
    exists (format_fixed 1 v), (tenths v # 10)%Q. split; [done|].
    split; [by apply exact_round_trip|].
    pose proof (tenths_close v). split; lra. }
  destruct (Z.of_nat size_bytes <? 1024 * 1024).
  - destruct (Hunit 1024%Q ltac:(done)) as (s & q & Hs & Hq & Hclose).
    exists s, q. split; [|done].
    change (float_of_int 1024) with 1024%Q.
    destruct (fdiv _ _) as [v|]; [|done]. cbn [mbind option_bind] in *. congruence.
  - destruct (Hunit 1048576%Q ltac:(done)) as (s & q & Hs & Hq & Hclose).
    exists s, q. split; [|done].
    change (float_of_int (1024 * 1024)) with 1048576%Q.
    destruct (fdiv _ _) as [v|]; [|done]. cbn [mbind option_bind] in *. congruence.
Qed.

Lemma file_size_text_is_close_witness :
  ∃ s q,
    get_file_size_str (F:=Q) 1536 = Some (s +:+ " KB") ∧
    py_float (F:=Q) s = Some q ∧
    (q - (1 # 20) <= inject_Z (Z.of_nat 1536) / 1024 <= q + (1 # 20))%Q.
Proof. apply (file_size_text_is_close 1536). lia. Defined.

(** ** What a first run leaves *)

(** When no image refers to an existing SVG file, a run leaves no image
    it has processed with a reference to an existing regular file:
    whatever could be embedded has been. *)
Theorem embedder_embeds_all `{PyFloat F} (w : World F) (doc : Document) :
  no_svg_image_targets w (heap doc) →
  match (embed_images_in_svg w (Some doc) false).1.2 with
  | Some doc' =>
      ∀ id e, id ∈ images_to_process (heap doc) (root doc) →
        heap doc' !! id = Some e → embeddable w e = false
  | None => False
  end.
Proof.
  intros Hno. cbn [embed_images_in_svg fst snd heap].
  set (ids := images_to_process (heap doc) (root doc)).
  destruct (first_run w (root doc) ids
              {| store := heap doc; images_embedded := 0; modified := false;
                 printed := [] |}) as (_ & _ & _ & Hsettled).
  { intros id Hid. by apply (images_are_plain w (heap doc) (root doc)). }
  intros id e Hid He. by destruct (Hsettled id Hid e He).
Qed.

Lemma embedder_embeds_all_witness :
  match (embed_images_in_svg (F:=float) sample_files (Some missing_and_valid) false).1.2
  with
  | Some doc' =>
      ∀ id e, id ∈ images_to_process (heap missing_and_valid) (root missing_and_valid) →
        heap doc' !! id = Some e → embeddable (F:=float) sample_files e = false
  | None => False
  end.
Proof.
  apply (embedder_embeds_all (F:=float) sample_files missing_and_valid).
  apply no_svg_image_targets_checked. vm_compute. reflexivity.
Defined.

(** * More on the geometry fixer *)

Lemma same_but_geometry_refl (e : Element) : same_but_geometry e e.
Proof. by repeat split. Qed.

Lemma same_but_geometry_trans (e1 e2 e3 : Element) :
  same_but_geometry e1 e2 → same_but_geometry e2 e3 → same_but_geometry e1 e3.
Proof.
  intros (Ht & Hc & Ha) (Ht' & Hc' & Ha'). split; [congruence|].
  split; [congruence|]. intros k Hk. by rewrite Ha', Ha.
Qed.

Section FixerStructure.
Context `{PyFloat F} (w : World F) (fuel : nat).

Lemma fix_element_same (e e' : Element) :
  fix_element w fuel e = Returns (Fix e') → same_but_geometry e e'.
Proof.
  intros Hfix.
  destruct (fix_element_fix_inv w fuel e e' Hfix)
    as (href & x & y & bw & bh & iw & ih & nw & nh & ox & oy & _ & _ & _ & _
        & _ & _ & _ & _ & _ & _ & ->).
  split; [done|]. split; [done|]. intros k Hk.
  apply fixed_lookup; intros ->; apply Hk; set_solver.
Qed.

(** The loop: the store keeps its objects, the counter only grows, and
    it grows whenever the store changes. *)
Lemma fix_loop_structure (dry_run : bool) (ids : list nat) :
  ∀ h n,
    match fix_loop w fuel dry_run ids h n with
    | Returns (h', n') =>
        Forall2 same_but_geometry h h' ∧ (n ≤ n')%nat ∧
        (dry_run = true ∨ n' = n → h' = h)
    | _ => True
    end.
Proof.
  induction ids as [|id ids IH]; intros h n; cbn [fix_loop].
  - split; [|split; [lia|done]].
    apply Forall2_same_length_lookup_2; [done|].
    intros i e e' He He'. replace e' with e by congruence.
    apply same_but_geometry_refl.
  - destruct (h !! id) as [e|] eqn:Hid; [|apply IH].
    destruct (fix_element w fuel e) as [s| |] eqn:Hstep; [|done..].
    destruct s as [| | | | | | |e1]; try apply IH.
    pose proof (fix_element_same e e1 Hstep) as Hsame.
    specialize (IH (if dry_run then h else <[id := e1]> h) (S n)).
    destruct (fix_loop w fuel dry_run ids _ (S n)) as [[h' n']| |]; [|done..].
    destruct IH as (Hall & Hn & Hsame').
    split; [|split; [lia|]].
    + destruct dry_run; [done|].
      apply Forall2_same_length_lookup_2.
      { apply Forall2_length in Hall. by rewrite length_insert in Hall. }
      intros i e0 e0' He0 He0'.
      rewrite Forall2_lookup in Hall. specialize (Hall i).
      rewrite He0' in Hall. destruct (decide (i = id)) as [->|Hne].
      * rewrite list_lookup_insert_eq in Hall by (by eapply lookup_lt_Some).
        inversion Hall as [? ? Hrel|]; subst.
        replace e0 with e by congruence.
        by eapply same_but_geometry_trans.
      * rewrite list_lookup_insert_ne, He0 in Hall by done.
        by inversion Hall.
    + intros [->|Hn']; [|lia]. by apply Hsame'; left.
Qed.
End FixerStructure.

(** The fixer keeps every object of the document at its address with its
    tag, its children and every attribute other than x, y, width, height
    and the aspect-ratio directive; and the document is the one it was
    given after a dry run and whenever the count is zero. *)
Theorem fixer_keeps_structure `{PyFloat F} (w : World F) (fuel : nat) (doc : Document)
    (dry_run : bool) :
  match fix_image_aspect_in_svg w fuel (Some doc) dry_run with
  | Returns (n, Some doc') =>
      root doc' = root doc ∧ Forall2 same_but_geometry (heap doc) (heap doc') ∧
      (dry_run = true ∨ n = 0%nat → doc' = doc)
  | Returns (_, None) => False
  | _ => True
  end.
Proof.
  unfold fix_image_aspect_in_svg.
  pose proof (fix_loop_structure w fuel dry_run (root_iter (heap doc) (root doc))
                (heap doc) 0) as Hloop.
  destruct (fix_loop w fuel dry_run _ _ _) as [[h' n']| |]; [|done..].
  destruct Hloop as (Hall & _ & Hsame). cbn [root heap].
  split; [done|]. split; [done|]. intros Hcase.
  rewrite Hsame; [by destruct doc|]. destruct Hcase as [Hd|Hn]; [by left|by right].
Qed.

Section DryRunCount.
Context `{PyFloat F} (w : World F) (fuel : nat).

(** A dry run meets every element as the real run does, as long as no
    element is met twice. *)
Lemma fix_loop_dry_agrees (ids : list nat) :
  NoDup ids →
  ∀ h h0 n,
    (∀ id, id ∈ ids → h !! id = h0 !! id) →
    match fix_loop w fuel false ids h n with
    | Returns (_, n') => fix_loop w fuel true ids h0 n = Returns (h0, n')
    | Raises exn => fix_loop w fuel true ids h0 n = Raises exn
    | Running => fix_loop w fuel true ids h0 n = Running
    end.
Proof.
  induction 1 as [|id ids Hnew _ IH]; intros h h0 n Hagree; [done|].
  cbn [fix_loop]. rewrite <- (Hagree id) by (by left).
  assert (∀ h1 : list Element, (∀ j, j ≠ id → h1 !! j = h !! j) →
            ∀ j, j ∈ ids → h1 !! j = h0 !! j) as Hnext.
  { intros h1 Hh1 j Hj. rewrite Hh1 by (by intros ->).
    apply Hagree. by right. }
  destruct (h !! id) as [e|] eqn:Hid; [|by apply IH, Hnext].
  destruct (fix_element w fuel e) as [s| |]; [|done..].
  destruct s as [| | | | | | |e1]; try by apply IH, Hnext.
  apply IH, Hnext. intros j Hj. by apply list_lookup_insert_ne.
Qed.
End DryRunCount.

(** When the traversal meets no element twice, a dry run returns the
    count of the real run, or ends as the real run does, and leaves the
    document as it is. *)
Theorem dry_run_counts_as_real_run `{PyFloat F} (w : World F) (fuel : nat)
    (doc : Document) :
  NoDup (root_iter (heap doc) (root doc)) →
  match fix_image_aspect_in_svg w fuel (Some doc) false with
  | Returns (n, _) =>
      fix_image_aspect_in_svg w fuel (Some doc) true = Returns (n, Some doc)
  | Raises exn => fix_image_aspect_in_svg w fuel (Some doc) true = Raises exn
  | Running => fix_image_aspect_in_svg w fuel (Some doc) true = Running
  end.
Proof.
  intros Hnodup. unfold fix_image_aspect_in_svg.
  pose proof (fix_loop_dry_agrees w fuel _ Hnodup (heap doc) (heap doc) 0
                ltac:(done)) as Hloop.
  destruct (fix_loop w fuel false _ _ _) as [[h' n']| |]; rewrite Hloop; [|done..].
  by destruct doc.
Qed.

Lemma dry_run_counts_as_real_run_witness :
  match fix_image_aspect_in_svg (F:=float) image_files 1
          (Some (square_box "tall.png")) false with
  | Returns (n, _) =>
      fix_image_aspect_in_svg (F:=float) image_files 1
        (Some (square_box "tall.png")) true
      = Returns (n, Some (square_box "tall.png"))
  | Raises exn =>
      fix_image_aspect_in_svg (F:=float) image_files 1
        (Some (square_box "tall.png")) true = Raises exn
  | Running =>
      fix_image_aspect_in_svg (F:=float) image_files 1
        (Some (square_box "tall.png")) true = Running
  end.
Proof.
  apply (dry_run_counts_as_real_run (F:=float) image_files 1 (square_box "tall.png")).
  vm_compute. repeat constructor; set_solver.
Defined.

(** An image whose height is measured as zero makes the division of the
    calculator fail; the loop does not catch it, so the run ends with
    [ZeroDivisionError].  A PNG cut off after its signature is such an
    image. *)
Theorem zero_height_image_raises (w : World float) (fuel : nat) (e : Element)
    (href : string) (x y bw bh iw : float) (dry_run : bool) (id : nat)
    (ids : list nat) (h : list Element) (n : nat) :
  is_image e = true → get_href e = Some href →
  float_attr e "x" = Some x → float_attr e "y" = Some y →
  float_attr e "width" = Some bw → float_attr e "height" = Some bh →
  fle bw f_zero = false → fle bh f_zero = false →
  contains "none" (default "xMidYMid meet" (attrib e !! PAR)) = false →
  get_image_dimensions w fuel href = Returns (Some iw, Some (float_of_int 0)) →
  h !! id = Some e →
  fix_element w fuel e = Raises "ZeroDivisionError" ∧
  fix_loop w fuel dry_run (id :: ids) h n = Raises "ZeroDivisionError".
Proof.
  intros Himg Hhref Hx Hy Hbw Hbh Hbw0 Hbh0 Hnone Hdims Hid.
  assert (fix_element w fuel e = Raises "ZeroDivisionError") as Hstep.
  { unfold fix_element. unfold is_image in Himg. rewrite Himg. cbn [negb].
    rewrite Hhref, Hx, Hy, Hbw, Hbh, Hbw0, Hbh0. cbn [orb].
    fold PAR. rewrite Hnone, Hdims.
    unfold calculate_fitted_dimensions.
    assert (fdiv iw (float_of_int 0) = None) as -> by reflexivity. done. }
  split; [done|]. cbn [fix_loop]. by rewrite Hid, Hstep.
Qed.

Lemma zero_height_image_raises_witness :
  fix_element (F:=float) truncated_files 1
    (image_element [("href", "cut.png"); ("width", "100"); ("height", "100")])
  = Raises "ZeroDivisionError" ∧
  fix_loop (F:=float) truncated_files 1 false [0%nat]
    [image_element [("href", "cut.png"); ("width", "100"); ("height", "100")]] 0
  = Raises "ZeroDivisionError".
Proof.
  apply (zero_height_image_raises truncated_files 1 _ "cut.png"
           (float_of_int 0) (float_of_int 0) (float_of_int 100) (float_of_int 100)
           (float_of_int 0));
    vm_compute; reflexivity.
Defined.

(** In floating point every number, printed with one decimal, reads back
    as a float: an element the fixer has rewritten is not skipped for bad
    geometry by a later run. *)
Theorem written_geometry_reads_back (w : World float) (fuel : nat) (e e' : Element) :
  (∀ v : float, ∃ v', py_float (F:=float) (format_fixed 1 v) = Some v') ∧
  (fix_element w fuel e = Returns (Fix e') →
   match fix_element w fuel e' with
   | Returns SkipBadGeometry => False
   | _ => True
   end).
Proof.
  assert (∀ v : float, ∃ v', py_float (F:=float) (format_fixed 1 v) = Some v') as Hback.
  { intros v. destruct (to_fixed 1 v) as [neg| |neg n] eqn:Hv.
    - unfold format_fixed. rewrite Hv. destruct neg; eexists; reflexivity.
    - unfold format_fixed. rewrite Hv. eexists; reflexivity.
    - eexists. by apply py_float_format_fixed. }
  split; [done|]. intros Hfix.
  destruct (fix_element_fix_inv w fuel e e' Hfix)
    as (href & x & y & bw & bh & iw & ih & nw & nh & ox & oy & Htag & Hhref & _ & _
        & _ & _ & _ & _ & _ & _ & ->).
  destruct (fixed_size e (format_fixed 1 (fadd x ox)) (format_fixed 1 (fadd y oy))
              (format_fixed 1 nw) (format_fixed 1 nh))
    as (Ew & Eh & Ex & Ey & Epar).
  unfold fix_element. fold PAR.
  rewrite fixed_href, Hhref. unfold float_attr. rewrite Ew, Eh, Ex, Ey, Epar.
  cbn [tag del_attr set_attr]. rewrite Htag. cbn [negb].
  destruct (Hback (fadd x ox)) as [x' ->]. destruct (Hback (fadd y oy)) as [y' ->].
  destruct (Hback nw) as [w' ->]. destruct (Hback nh) as [h' ->].
  destruct (_ || _); [done|]. cbn [default].
  change (contains "none" "xMidYMid meet") with false. cbn iota.
  destruct (get_image_dimensions w fuel href) as [[[?|] [?|]]| |]; try done.
  destruct (calculate_fitted_dimensions _ _ _ _ _) as [[[[? ?] ?] ?]|]; [|done].
  by destruct (_ && _).
Qed.

Lemma written_geometry_reads_back_witness :
  match
    fix_element (F:=float) image_files 1
    (image_element [("height", "97.6"); ("href", "tall.png"); ("width", "1.2");
                    ("x", "49.4"); ("y", "1.2")])
  with
  | Returns SkipBadGeometry => False
  | _ => True
  end.
Proof.
  refine (proj2 (written_geometry_reads_back image_files 1
                   (image_element [("height", "100.0"); ("href", "tall.png");
                                   ("width", "1.2"); ("x", "49.4"); ("y", "0.0")])
                   (image_element [("height", "97.6"); ("href", "tall.png");
                                   ("width", "1.2"); ("x", "49.4"); ("y", "1.2")]))
            _).
  vm_compute. reflexivity.
Defined.

(** In exact arithmetic the calculator never fails on positive sizes, the
    fitted rectangle has exactly the aspect ratio of the image, and the
    offsets leave the same margin on both sides of it, whatever the
    mode. *)
Theorem fitted_rectangle_keeps_ratio (iw ih bw bh : Q) (mode : string) :
  (0 < iw)%Q → (0 < ih)%Q → (0 < bw)%Q → (0 < bh)%Q →
  ∃ nw nh ox oy,
    calculate_fitted_dimensions iw ih bw bh mode = Some (nw, nh, ox, oy) ∧
    (nw * ih == nh * iw ∧ ox + nw + ox == bw ∧ oy + nh + oy == bh)%Q.
Proof.
  intros Hiw Hih Hbw Hbh.
  destruct (exact_fit iw ih bw bh mode) as (nw & nh & E & _); try done.
  exists nw, nh, ((bw - nw) / 2)%Q, ((bh - nh) / 2)%Q. split; [done|].
  destruct (fitted_ratio _ _ _ _ _ _ _ _ _ Hiw Hih Hbw Hbh E) as (_ & _ & Hratio).
  split; [done|]. split; field.
Qed.

Lemma fitted_rectangle_keeps_ratio_witness :
  ∃ nw nh ox oy,
    calculate_fitted_dimensions 123%Q 10000%Q 100%Q 100%Q "slice"
      = Some (nw, nh, ox, oy) ∧
    (nw * 10000 == nh * 123 ∧ ox + nw + ox == 100 ∧ oy + nh + oy == 100)%Q.
Proof. apply (fitted_rectangle_keeps_ratio 123 10000 100 100 "slice"); reflexivity. Defined.

